(** * conf_check: DNS and HTTP reachability checks with an audible alert

    A shallow embedding of [conf_check.py].  The script probes a fixed list
    of URLs (a DNS "A" query, then an HTTP GET, per URL), prints one line per
    outcome, optionally mirrors some lines to the device log through
    [cli("send log ...")], and on failure optionally plays a sound on a
    Chromecast, serving the audio file from a local HTTP server.

    Everything the script does is a call into a library or into the device,
    so a run is modelled as the list of those calls, in order, together with
    the value returned or the exception raised.  What the outside world
    answers is a parameter; the answer to a probe depends on what is probed,
    not on when.  A [World] gives the answers when the device executes every
    command it is sent; an [Env] is a world together with the commands the
    device refuses, for which [cli] raises.  The script is defined over
    [Env].  A property stated for a [w : World] is about the script run in
    [answering w], the environment of [w] where no command is refused.
    [print] is taken not to raise. *)

From Stdlib Require Import List String Ascii ZArith Bool Lia DecimalString.
Import ListNotations.
Local Open Scope Z_scope.
Local Open Scope list_scope.
Local Open Scope string_scope.

(** ** Python exceptions *)

(** An exception instance: [e.__class__.__name__], the qualified names of
    the classes of its MRO (what [except C] and [isinstance] look at), and
    [str(e)]. *)
Record exn : Type := mkExn {
  exn_name : string;
  exn_mro : list string;
  exn_str : string
}.

Definition isinstance (e : exn) (cls : string) : bool :=
  existsb (String.eqb cls) (exn_mro e).

Definition RequestException : string := "requests.exceptions.RequestException".
Definition AssertionError_cls : string := "AssertionError".
Definition IndexError_cls : string := "IndexError".

Definition builtin_bases : list string :=
  ["StandardError"; "Exception"; "BaseException"; "object"]%list.

(** What a failed [assert] raises. *)
Definition AssertionError : exn :=
  mkExn "AssertionError" (AssertionError_cls :: builtin_bases) "".

(** What [lst[0]] raises on an empty list. *)
Definition IndexError : exn :=
  mkExn "IndexError" (IndexError_cls :: "LookupError" :: builtin_bases)
        "list index out of range".

(** ** Runs: a trace of external calls and an outcome *)

Inductive outcome (A : Type) : Type :=
| Return (a : A)
| Raise (e : exn).
Arguments Return {A} a.
Arguments Raise {A} e.

Inductive event : Type :=
| Print (line : string)                       (* print(line) *)
| Cli (command : string)                      (* cli(command) *)
| NewResolver                                 (* dns.resolver.Resolver() *)
| DnsQuery (domain : option string) (timeout : Z) (* resolver.query(domain, 'A') *)
| HttpGet (url : string) (timeout : Z)        (* requests.get(url, timeout=timeout) *)
| ThreadStart                                 (* thread.start(): serve_forever runs *)
| ServerShutdown                              (* server.shutdown() *)
| CastConnect (host : string)                 (* pychromecast.Chromecast(host) *)
| PlayMedia (url mime : string).              (* mc.play_media(url, mime) *)

Record run (A : Type) : Type := mkRun {
  trace : list event;
  result : outcome A
}.
Arguments mkRun {A} trace result.
Arguments trace {A} r.
Arguments result {A} r.

Definition M := run.

Definition ret {A} (a : A) : M A := mkRun [] (Return a).

Definition raise {A} (e : exn) : M A := mkRun [] (Raise e).

Definition bind {A B} (m : M A) (k : A -> M B) : M B :=
  match result m with
  | Return a => mkRun (trace m ++ trace (k a)) (result (k a))
  | Raise e => mkRun (trace m) (Raise e)
  end.

Notation "x <- c ;; k" := (bind c (fun x => k))
  (at level 61, c at next level, right associativity).
Notation "c ;; k" := (bind c (fun _ => k))
  (at level 61, right associativity).

Definition emit (ev : event) : M unit := mkRun [ev] (Return tt).

(** A call whose only possible failure is the exception the world gives. *)
Definition call (ev : event) (answer : option exn) : M unit :=
  mkRun [ev] match answer with None => Return tt | Some e => Raise e end.

(** A call that returns a value or raises. *)
Definition call_value {A} (ev : event) (answer : outcome A) : M A :=
  mkRun [ev] answer.

(** [try: body  except <classes accepted by catches> as e: handler e]. *)
Definition try_except {A} (catches : exn -> bool) (body : M A)
    (handler : exn -> M A) : M A :=
  match result body with
  | Return _ => body
  | Raise e =>
      if catches e
      then mkRun (trace body ++ trace (handler e)) (result (handler e))
      else body
  end.

(** [if c: body]. *)
Definition when (c : bool) (body : M unit) : M unit :=
  if c then body else ret tt.

(** [assert b]. *)
Definition assert (b : bool) : M unit :=
  if b then ret tt else raise AssertionError.

(** ** The outside world *)

(** The part of a [requests.Response] the script depends on. *)
Record Response : Type := mkResponse {
  status_code : Z;
  reason : string;
  response_url : string
}.

Record World : Type := mkWorld {
  (* the text the device prints for a command *)
  cli_output : string -> string;
  (* dns.resolver.Resolver(): [Some e] when it raises e *)
  Resolver_init : option exn;
  (* urlparse(url).hostname, [None] being Python's None *)
  urlparse_hostname : string -> outcome (option string);
  (* resolver.query(domain, 'A') with the given timeout *)
  resolver_query : option string -> Z -> option exn;
  (* requests.get(url, timeout=timeout) *)
  requests_get : string -> Z -> outcome Response;
  (* pychromecast.Chromecast(host) *)
  Chromecast_init : string -> option exn;
  (* media_controller.play_media(url, mime) *)
  play_media : string -> string -> option exn
}.

(** A world and a device that may refuse commands: [cli_refusal command]
    is [Some e] when [cli(command)] raises [e] instead of returning the
    output. *)
Record Env : Type := mkEnv {
  world : World;
  cli_refusal : string -> option exn
}.

(** The environment of [w] in which the device executes every command. *)
Definition answering (w : World) : Env :=
  {| world := w; cli_refusal := fun _ => None |}.

Coercion answering : World >-> Env.

(** The module's constants. *)
Record Globals : Type := mkGlobals {
  CASTIPADDR : string;
  AUDIOFILE : string;
  WEB_HOSTS : list string
}.

(** The constants as the script sets them. *)
Definition conf_check : Globals :=
  {| CASTIPADDR := "192.168.101.103";
     AUDIOFILE := "Future_Gladiator.mp3";
     WEB_HOSTS := ["https://www.cisco.com"; "https://www.google.com"]%list |}.

(** [parse_arguments()]: the two flags. *)
Record Args : Type := mkArgs {
  arg_chromecast : bool;
  arg_syslog : bool
}.

(** ** [re.findall(r'[0-9]+(?:\.[0-9]+){3}', s)] *)

Definition is_digit (c : ascii) : bool :=
  ((48 <=? nat_of_ascii c)%nat && (nat_of_ascii c <=? 57)%nat)%bool.

(** The longest run of digits at the head of [s], and what follows it. *)
Fixpoint span_digits (s : string) : string * string :=
  match s with
  | EmptyString => (EmptyString, EmptyString)
  | String c s' =>
      if is_digit c
      then let (d, r) := span_digits s' in (String c d, r)
      else (EmptyString, s)
  end.

(** [[0-9]+] at the head of [s]: greedy, at least one digit. *)
Definition match_digits (s : string) : option (string * string) :=
  match span_digits s with
  | (EmptyString, _) => None
  | (d, r) => Some (d, r)
  end.

(** [\.[0-9]+] at the head of [s]. *)
Definition match_dot_digits (s : string) : option (string * string) :=
  match s with
  | String "."%char s' =>
      match match_digits s' with
      | Some (d, r) => Some (String "."%char d, r)
      | None => None
      end
  | _ => None
  end.

(** The whole pattern at the head of [s]: the text matched and the rest.
    A group that gave back digits could not be followed by a dot, so the
    greedy choice is the only one. *)
Definition match_quad (s : string) : option (string * string) :=
  match match_digits s with
  | None => None
  | Some (d1, r1) =>
      match match_dot_digits r1 with
      | None => None
      | Some (d2, r2) =>
          match match_dot_digits r2 with
          | None => None
          | Some (d3, r3) =>
              match match_dot_digits r3 with
              | None => None
              | Some (d4, r4) => Some (d1 ++ d2 ++ d3 ++ d4, r4)
              end
          end
      end
  end.

(** The scan of [findall]: leftmost matches, not overlapping.  [skip] counts
    the characters still covered by the last match. *)
Fixpoint findall_from (skip : nat) (s : string) : list string :=
  match s with
  | EmptyString => []
  | String _ s' =>
      match skip with
      | S k => findall_from k s'
      | O =>
          match match_quad s with
          | Some (m, _) => m :: findall_from (Nat.pred (String.length m)) s'
          | None => findall_from 0 s'
          end
      end
  end.

Definition findall_quad (s : string) : list string := findall_from 0 s.

(** ** The script *)

Definition Z_to_string (z : Z) : string :=
  NilEmpty.string_of_int (Z.to_int z).

Section ConfCheck.

Variable env : Env.
Variable g : Globals.

Local Abbreviation w := (world env).

Definition print (line : string) : M unit := emit (Print line).

(** [cli(command)]: the command is sent; its output is returned, or the
    exception of a refused command is raised. *)
Definition cli (command : string) : M string :=
  call_value (Cli command)
    match cli_refusal env command with
    | Some e => Raise e
    | None => Return (cli_output w command)
    end.

Definition server_up : M unit :=
  emit ThreadStart ;;
  print ("starting server on port " ++ Z_to_string 45114).

Definition server_down : M unit :=
  emit ServerShutdown ;;
  print ("stopping server on port " ++ Z_to_string 45114).

Definition audio_play : M unit :=
  ship <- cli "show ip int bri gi2" ;;
  host <- match findall_quad ship with
          | [] => raise IndexError
          | h :: _ => ret h
          end ;;
  let url := "http://" ++ host ++ ":" ++ Z_to_string 45114 ++ "/" ++ AUDIOFILE g in
  call (CastConnect (CASTIPADDR g)) (Chromecast_init w (CASTIPADDR g)) ;;
  call (PlayMedia url "audio/mp3") (play_media w url "audio/mp3").

Definition syslog_prefix : string :=
  "send log facility PYTHON severity 6 mnemonics CONF_CHECK ".

Definition send_syslog (message : string) : M unit :=
  cli (syslog_prefix ++ message) ;; ret tt.

(** The body of the [try] in [dns_check]. *)
Definition dns_try (url : string) (timeout : Z) : M unit :=
  call NewResolver (Resolver_init w) ;;
  domain <- mkRun [] (urlparse_hostname w url) ;;
  call (DnsQuery domain timeout) (resolver_query w domain timeout) ;;
  print ("DNS check for url " ++ url ++ " ... passed!").

(** The bare [except:] of [dns_check]; it ends in [return False]. *)
Definition dns_except (url : string) (syslog : bool) : M (option bool) :=
  let message := "DNS check for url " ++ url ++ " ... failed" in
  print message ;;
  when syslog
    (let syslog_message := "DNS check for url " ++ url ++ " ... failed" in
     send_syslog syslog_message) ;;
  ret (Some false).

(** [dns_check]: the loop runs over [urls]; an iteration gives [Some b] when
    it returns [b] from the function and [None] when the loop goes on; the
    empty list is the [else] of the [for]. *)
Fixpoint dns_check (urls : list string) (timeout : Z) (syslog : bool) : M bool :=
  match urls with
  | [] =>
      let message := "All dns checks passed successfully!" in
      print message ;;
      when syslog (send_syslog message) ;;
      ret true
  | url :: urls' =>
      r <- try_except (fun _ => true)
             (dns_try url timeout ;; ret None)
             (fun _ => dns_except url syslog) ;;
      match r with
      | Some b => ret b
      | None => dns_check urls' timeout syslog
      end
  end%list.

(** [requests.exceptions.HTTPError], a [RequestException]. *)
Definition HTTPError (msg : string) : exn :=
  mkExn "HTTPError"
        ("requests.exceptions.HTTPError" :: RequestException
           :: "IOError" :: "EnvironmentError" :: builtin_bases)
        msg.

(** [Response.raise_for_status()] of requests: an [HTTPError] for a 4xx or
    5xx status, nothing otherwise. *)
Definition raise_for_status (r : Response) : M unit :=
  let code := status_code r in
  if ((400 <=? code)%Z && (code <? 500)%Z)%bool then
    raise (HTTPError (Z_to_string code ++ " Client Error: " ++ reason r
                        ++ " for url: " ++ response_url r))
  else if ((500 <=? code)%Z && (code <? 600)%Z)%bool then
    raise (HTTPError (Z_to_string code ++ " Server Error: " ++ reason r
                        ++ " for url: " ++ response_url r))
  else ret tt.

(** The body of the [try] in [web_check]. *)
Definition web_try (url : string) (timeout : Z) : M unit :=
  response <- call_value (HttpGet url timeout) (requests_get w url timeout) ;;
  raise_for_status response ;;
  print ("Web check for url " ++ url ++ " ... passed!").

(** [except requests.exceptions.RequestException as e:], ending in
    [return False]. *)
Definition web_except (url : string) (syslog : bool) (e : exn) : M (option bool) :=
  let message :=
    "Web check for url " ++ url ++ " ... failed: "
      ++ exn_name e ++ ": " ++ exn_str e in
  print message ;;
  when syslog
    (let syslog_message :=
       "Web check for url " ++ url ++ " ... failed due to " ++ exn_name e in
     send_syslog syslog_message) ;;
  ret (Some false).

Fixpoint web_check (urls : list string) (timeout : Z) (syslog : bool) : M bool :=
  match urls with
  | [] =>
      let message := "All web checks passed successfully!" in
      print message ;;
      when syslog (send_syslog message) ;;
      ret true
  | url :: urls' =>
      r <- try_except (fun e => isinstance e RequestException)
             (web_try url timeout ;; ret None)
             (web_except url syslog) ;;
      match r with
      | Some b => ret b
      | None => web_check urls' timeout syslog
      end
  end%list.

(** [checks]: both calls leave [timeout] at its default, 1. *)
Definition checks (syslog : bool) : M unit :=
  (b <- dns_check (WEB_HOSTS g) 1 syslog ;; assert b) ;;
  (b <- web_check (WEB_HOSTS g) 1 syslog ;; assert b).

(** The block under [if args.chromecast:]. *)
Definition alert : M unit :=
  server_up ;;
  audio_play ;;
  server_down.

(** [main], from the parsed arguments on. *)
Definition main (args : Args) : M unit :=
  try_except (fun e => isinstance e AssertionError_cls)
    (checks (arg_syslog args))
    (fun _ =>
       let message := "Network Error!" in
       print message ;;
       when (arg_syslog args) (send_syslog message) ;;
       when (arg_chromecast args) alert).

End ConfCheck.


(** ** What is read off a trace *)

(** [strip_prefix p s] is [Some m] when [s] is [p ++ m]. *)
Fixpoint strip_prefix (p s : string) : option string :=
  match p, s with
  | EmptyString, _ => Some s
  | String a p', String b s' =>
      if Ascii.eqb a b then strip_prefix p' s' else None
  | String _ _, EmptyString => None
  end.

(** The lines printed on the console. *)
Definition printed_lines (t : list event) : list string :=
  flat_map (fun ev => match ev with Print l => [l] | _ => [] end)%list t.

(** The messages handed to the device log: the [send log] commands. *)
Definition syslog_lines (t : list event) : list string :=
  flat_map (fun ev =>
              match ev with
              | Cli c => match strip_prefix syslog_prefix c with
                         | Some m => [m]
                         | None => []
                         end
              | _ => []
              end)%list t.

(** The URLs an HTTP GET was issued for. *)
Definition http_gets (t : list event) : list string :=
  flat_map (fun ev => match ev with HttpGet u _ => [u] | _ => [] end)%list t.

(** The domains a DNS query was issued for. *)
Definition dns_queries (t : list event) : list (option string) :=
  flat_map (fun ev => match ev with DnsQuery d _ => [d] | _ => [] end)%list t.

(** How many resolvers were created: one per iteration of [dns_check]. *)
Definition resolvers_created (t : list event) : nat :=
  List.length (filter (fun ev => match ev with NewResolver => true | _ => false end) t).

Definition server_starts (t : list event) : nat :=
  List.length (filter (fun ev => match ev with ThreadStart => true | _ => false end) t).

Definition server_stops (t : list event) : nat :=
  List.length (filter (fun ev => match ev with ServerShutdown => true | _ => false end) t).

Definition play_commands (t : list event) : list string :=
  flat_map (fun ev => match ev with PlayMedia u _ => [u] | _ => [] end)%list t.

(** The URL the speaker is told to play, for the address [host]. *)
Definition media_url (g : Globals) (host : string) : string :=
  "http://" ++ host ++ ":45114/" ++ AUDIOFILE g.

(** ** What the world says about one URL *)

(** The hostname of [url] resolves: every step of the [try] of [dns_check]
    goes through. *)
Definition resolves (w : World) (timeout : Z) (url : string) : bool :=
  match Resolver_init w, urlparse_hostname w url with
  | None, Return domain =>
      match resolver_query w domain timeout with
      | None => true
      | Some _ => false
      end
  | _, _ => false
  end.

Definition is_error_status (code : Z) : bool :=
  ((400 <=? code)%Z && (code <? 600)%Z)%bool.

Definition is_2xx (code : Z) : bool :=
  ((200 <=? code)%Z && (code <? 300)%Z)%bool.

(** The GET of [url] comes back with a status that is not 4xx or 5xx. *)
Definition responds (w : World) (timeout : Z) (url : string) : bool :=
  match requests_get w url timeout with
  | Return r => negb (is_error_status (status_code r))
  | Raise _ => false
  end.

(** The GET of [url] comes back with a 2xx status. *)
Definition responds_2xx (w : World) (timeout : Z) (url : string) : bool :=
  match requests_get w url timeout with
  | Return r => is_2xx (status_code r)
  | Raise _ => false
  end.

(** What makes a URL fail the HTTP check: the GET raises a
    [RequestException] (a transport error, a timeout), or the status of the
    response is 4xx or 5xx. *)
Definition refused (w : World) (timeout : Z) (url : string) : bool :=
  match requests_get w url timeout with
  | Return r => is_error_status (status_code r)
  | Raise e => isinstance e RequestException
  end.

(** The exception the [try] of [web_check] ends with on [url], if any. *)
Definition web_error (w : World) (timeout : Z) (url : string) : option exn :=
  match result (web_try w url timeout) with
  | Return _ => None
  | Raise e => Some e
  end.

(** The batch failed: [checks] ended with an [AssertionError], which is
    what [main] catches. *)
Definition batch_failed (c : M unit) : bool :=
  match result c with
  | Return _ => false
  | Raise e => isinstance e AssertionError_cls
  end.

(** The events a check can produce, none of which is the failure report of
    [main] or an action of the alert. *)
Definition check_event (ev : event) : bool :=
  match ev with
  | Print l => negb (String.eqb l "Network Error!")
  | Cli c =>
      match strip_prefix syslog_prefix c with
      | Some l => negb (String.eqb l "Network Error!")
      | None => false
      end
  | NewResolver | DnsQuery _ _ | HttpGet _ _ => true
  | ThreadStart | ServerShutdown | CastConnect _ | PlayMedia _ _ => false
  end.

(** ** Dotted quads, as the pattern reads them *)

Definition digits (d : string) : Prop :=
  forallb is_digit (list_ascii_of_string d) = true.

(** A group [[0-9]+]: digits, at least one. *)
Definition number (d : string) : Prop :=
  d <> EmptyString /\ digits d.

Definition dotted_quad (q : string) : Prop :=
  exists a b c d,
    number a /\ number b /\ number c /\ number d /\
    q = a ++ "." ++ b ++ "." ++ c ++ "." ++ d.

Definition contains_dotted_quad (s : string) : Prop :=
  exists pre q post, dotted_quad q /\ s = pre ++ q ++ post.

(** ** A laboratory world, for concrete runs *)

Definition NXDOMAIN : exn :=
  mkExn "NXDOMAIN"
        ("dns.resolver.NXDOMAIN" :: "dns.exception.DNSException" :: "Exception"
           :: "BaseException" :: "object" :: nil)
        "The DNS query name does not exist.".

Definition ConnectTimeout : exn :=
  mkExn "ConnectTimeout"
        ("requests.exceptions.ConnectTimeout" :: "requests.exceptions.ConnectionError"
           :: "requests.exceptions.Timeout" :: RequestException
           :: "IOError" :: "EnvironmentError" :: builtin_bases)
        "Connection to down.example timed out. (connect timeout=1)".

Definition ValueError : exn :=
  mkExn "ValueError" ("ValueError" :: builtin_bases) "check_hostname requires server_hostname".

Definition NotConnected : exn :=
  mkExn "NotConnected"
        ("pychromecast.error.NotConnected" :: "pychromecast.error.PyChromecastError"
           :: "Exception" :: "BaseException" :: "object" :: nil)
        "Chromecast is connecting...".

(** A device whose [show ip int bri gi2] prints [ship] and a speaker that
    answers [play] to the play command.  Names under [bad.example] do not
    resolve; the web servers answer by name. *)
Definition lab (ship : string) (play : option exn) : World :=
  {| cli_output := fun _ => ship;
     Resolver_init := None;
     urlparse_hostname := fun url => Return (strip_prefix "https://" url);
     resolver_query := fun domain _ =>
       match domain with
       | Some "bad.example" => Some NXDOMAIN
       | Some _ => None
       | None => Some NXDOMAIN
       end;
     requests_get := fun url _ =>
       if String.eqb url "https://missing.example"
       then Return (mkResponse 404 "Not Found" url)
       else if String.eqb url "https://cached.example"
       then Return (mkResponse 304 "Not Modified" url)
       else if String.eqb url "https://down.example"
       then Raise ConnectTimeout
       else if String.eqb url "https://broken.example"
       then Raise ValueError
       else Return (mkResponse 200 "OK" url);
     Chromecast_init := fun _ => None;
     play_media := fun _ _ => play |}.

Definition ship_gi2 : string :=
  "Interface              IP-Address      OK? Method Status                Protocol
GigabitEthernet2       192.168.101.1   YES manual up                    up".

Definition ship_unassigned : string :=
  "Interface              IP-Address      OK? Method Status                Protocol
GigabitEthernet2       unassigned      YES unset  administratively down down".

(** ** Further readings of a trace *)

(** A [send log] command to the device. *)
Definition is_send_log (ev : event) : bool :=
  match ev with
  | Cli c => match strip_prefix syslog_prefix c with
             | Some _ => true
             | None => false
             end
  | _ => false
  end.

(** The trace without its [send log] commands. *)
Definition without_send_log (t : list event) : list event :=
  filter (fun ev => negb (is_send_log ev)) t.

(** What a run without [--chromecast] may contain: probes, printed lines
    and [send log] commands; no server, no speaker, no other command. *)
Definition check_or_report (ev : event) : Prop :=
  match ev with
  | Print _ | NewResolver | DnsQuery _ _ | HttpGet _ _ => True
  | Cli c => exists m, c = syslog_prefix ++ m
  | ThreadStart | ServerShutdown | CastConnect _ | PlayMedia _ _ => False
  end.

Definition is_cli (ev : event) : bool :=
  match ev with Cli _ => true | _ => false end.

(** Every probe of the trace was given the timeout [t]. *)
Definition probe_timeout (t : Z) (ev : event) : Prop :=
  match ev with
  | DnsQuery _ t' | HttpGet _ t' => t' = t
  | _ => True
  end.

(** The hostname [urlparse] gives for [url]. *)
Definition hostname (w : World) (url : string) : option string :=
  match urlparse_hostname w url with
  | Return d => d
  | Raise _ => None
  end.

(** [s] does not begin with a digit. *)
Definition no_leading_digit (s : string) : Prop :=
  match s with
  | EmptyString => True
  | String c _ => is_digit c = false
  end.

(** [s] begins with a dotted quad. *)
Definition begins_with_dotted_quad (s : string) : Prop :=
  exists q r, dotted_quad q /\ s = q ++ r.

(** The aggregate lines of the two checks. *)
Definition dns_all_passed : string := "All dns checks passed successfully!".
Definition web_all_passed : string := "All web checks passed successfully!".

(** The longest initial part of [urls] that passes [ok]. *)
Fixpoint passing_prefix (ok : string -> bool) (urls : list string) : list string :=
  match urls with
  | [] => []
  | u :: urls' => if ok u then u :: passing_prefix ok urls' else []
  end%list.

(** ** A device that refuses commands *)

(** What [cli] raises for a command the device does not accept. *)
Definition CLISyntaxError : exn :=
  mkExn "CLISyntaxError"
        ("cli.CLISyntaxError" :: "Exception" :: "BaseException" :: "object" :: nil)
        "Syntax error while parsing the command".

(** The world [w] with a device that refuses every [send log] command. *)
Definition refusing_log (w : World) : Env :=
  {| world := w;
     cli_refusal := fun command =>
       match strip_prefix syslog_prefix command with
       | Some _ => Some CLISyntaxError
       | None => None
       end |}.

(** The commands [if syslog: send_syslog(message)] sends. *)
Definition log_commands (syslog : bool) (message : string) : list event :=
  if syslog then [Cli (syslog_prefix ++ message)] else [].

(** The outcome of [if syslog: send_syslog(message)] followed by a
    statement that ends in [r]: the exception of the refused command, or
    [r]. *)
Definition after_log {A} (env : Env) (syslog : bool) (message : string)
    (r : outcome A) : outcome A :=
  if syslog
  then match cli_refusal env (syslog_prefix ++ message) with
       | Some e => Raise e
       | None => r
       end
  else r.

(** The device executes every [send log] command. *)
Definition log_accepted (env : Env) : Prop :=
  forall message, cli_refusal env (syslog_prefix ++ message) = None.

(** * Properties *)

(** Up to the part on a device that refuses commands, the properties are
    stated for a [w : World]: the script runs in [answering w], where [cli]
    returns the output of every command. *)

(** ** Runs *)

Lemma result_bind {A B} (m : M A) (k : A -> M B) :
  result (bind m k) =
  match result m with Return a => result (k a) | Raise e => Raise e end.
Proof. unfold bind. destruct (result m); reflexivity. Qed.

Lemma trace_bind {A B} (m : M A) (k : A -> M B) :
  trace (bind m k) =
  match result m with
  | Return a => (trace m ++ trace (k a))%list
  | Raise _ => trace m
  end.
Proof. unfold bind. destruct (result m); reflexivity. Qed.

Lemma bind_return {A B} (m : M A) (a : A) (k : A -> M B) :
  result m = Return a ->
  bind m k = mkRun (trace m ++ trace (k a)) (result (k a)).
Proof. unfold bind. intros ->. reflexivity. Qed.

Lemma bind_raise {A B} (m : M A) (e : exn) (k : A -> M B) :
  result m = Raise e -> bind m k = mkRun (trace m) (Raise e).
Proof. unfold bind. intros ->. reflexivity. Qed.

Lemma try_except_return {A} (c : exn -> bool) (body : M A) (h : exn -> M A) (a : A) :
  result body = Return a -> try_except c body h = body.
Proof. unfold try_except. intros ->. reflexivity. Qed.

Lemma try_except_caught {A} (c : exn -> bool) (body : M A) (h : exn -> M A) (e : exn) :
  result body = Raise e -> c e = true ->
  try_except c body h = mkRun (trace body ++ trace (h e)) (result (h e)).
Proof. unfold try_except. intros -> ->. reflexivity. Qed.

Lemma try_except_uncaught {A} (c : exn -> bool) (body : M A) (h : exn -> M A) (e : exn) :
  result body = Raise e -> c e = false -> try_except c body h = body.
Proof. unfold try_except. intros -> ->. reflexivity. Qed.

Lemma run_eta {A} (r : M A) : mkRun (trace r) (result r) = r.
Proof. destruct r; reflexivity. Qed.

Lemma run_ext {A} (r1 r2 : M A) :
  trace r1 = trace r2 -> result r1 = result r2 -> r1 = r2.
Proof. destruct r1, r2; simpl; intros; subst; reflexivity. Qed.

Lemma strip_prefix_app (p m : string) : strip_prefix p (p ++ m) = Some m.
Proof.
  induction p as [|a p IH]; simpl.
  - destruct m; reflexivity.
  - rewrite Ascii.eqb_refl. exact IH.
Qed.

Lemma printed_lines_app (t1 t2 : list event) :
  printed_lines (t1 ++ t2) = (printed_lines t1 ++ printed_lines t2)%list.
Proof. apply flat_map_app. Qed.

Lemma syslog_lines_app (t1 t2 : list event) :
  syslog_lines (t1 ++ t2) = (syslog_lines t1 ++ syslog_lines t2)%list.
Proof. apply flat_map_app. Qed.

Lemma http_gets_app (t1 t2 : list event) :
  http_gets (t1 ++ t2) = (http_gets t1 ++ http_gets t2)%list.
Proof. apply flat_map_app. Qed.

Lemma resolvers_created_app (t1 t2 : list event) :
  resolvers_created (t1 ++ t2) = (resolvers_created t1 + resolvers_created t2)%nat.
Proof. unfold resolvers_created. rewrite filter_app, length_app. reflexivity. Qed.

Lemma server_starts_app (t1 t2 : list event) :
  server_starts (t1 ++ t2) = (server_starts t1 + server_starts t2)%nat.
Proof. unfold server_starts. rewrite filter_app, length_app. reflexivity. Qed.

Lemma server_stops_app (t1 t2 : list event) :
  server_stops (t1 ++ t2) = (server_stops t1 + server_stops t2)%nat.
Proof. unfold server_stops. rewrite filter_app, length_app. reflexivity. Qed.

Lemma send_syslog_run (w : World) (m : string) :
  send_syslog w m = mkRun [Cli (syslog_prefix ++ m)] (Return tt).
Proof. reflexivity. Qed.

Lemma syslog_lines_send (w : World) (m : string) :
  syslog_lines (trace (send_syslog w m)) = [m].
Proof.
  rewrite send_syslog_run. unfold syslog_lines. cbn [trace flat_map].
  rewrite strip_prefix_app. reflexivity.
Qed.

(** ** One iteration of [dns_check] *)

Section DnsLoop.

Variable w : World.
Variable timeout : Z.
Variable syslog : bool.

Lemma dns_try_ok (url : string) :
  resolves w timeout url = true -> result (dns_try w url timeout) = Return tt.
Proof.
  unfold resolves, dns_try, call, bind; simpl.
  destruct (Resolver_init w); [discriminate|]; simpl.
  destruct (urlparse_hostname w url) as [d|]; [|discriminate]; simpl.
  destruct (resolver_query w d timeout); [discriminate|]; reflexivity.
Qed.

Lemma dns_try_fail (url : string) :
  resolves w timeout url = false ->
  exists e, result (dns_try w url timeout) = Raise e.
Proof.
  unfold resolves, dns_try, call, bind; simpl.
  destruct (Resolver_init w) as [e|]; simpl; [eauto|].
  destruct (urlparse_hostname w url) as [d|e]; simpl; [|eauto].
  destruct (resolver_query w d timeout) as [e|]; simpl; [eauto|discriminate].
Qed.

Lemma dns_except_run (url : string) :
  dns_except w url syslog =
  mkRun (Print ("DNS check for url " ++ url ++ " ... failed")
           :: if syslog
              then [Cli (syslog_prefix ++ "DNS check for url " ++ url ++ " ... failed")]
              else [])
        (Return (Some false)).
Proof. unfold dns_except. destruct syslog; reflexivity. Qed.

Lemma dns_check_nil :
  dns_check w [] timeout syslog =
  mkRun (Print "All dns checks passed successfully!"
           :: if syslog
              then [Cli (syslog_prefix ++ "All dns checks passed successfully!")]
              else [])
        (Return true).
Proof. simpl. destruct syslog; reflexivity. Qed.

Lemma dns_check_cons_ok (url : string) (urls : list string) :
  resolves w timeout url = true ->
  dns_check w (url :: urls) timeout syslog =
  mkRun (trace (dns_try w url timeout) ++ trace (dns_check w urls timeout syslog))
        (result (dns_check w urls timeout syslog)).
Proof.
  intros H. apply dns_try_ok in H.
  cbn [dns_check]. unfold try_except.
  rewrite result_bind, H. cbn.
  unfold bind at 1. rewrite result_bind, H. cbn.
  rewrite trace_bind, H. cbn. rewrite app_nil_r. reflexivity.
Qed.

Lemma dns_check_cons_fail (url : string) (urls : list string) :
  resolves w timeout url = false ->
  dns_check w (url :: urls) timeout syslog =
  mkRun (trace (dns_try w url timeout) ++ trace (dns_except w url syslog))
        (Return false).
Proof.
  intros H. apply dns_try_fail in H. destruct H as [e H].
  cbn [dns_check]. unfold try_except.
  rewrite result_bind, H. cbn iota beta.
  rewrite trace_bind, H. rewrite dns_except_run.
  unfold bind. cbn [result trace ret]. rewrite app_nil_r. reflexivity.
Qed.

End DnsLoop.

(** ** The loop of [dns_check] *)

Section DnsCheck.

Variable w : World.
Variable timeout : Z.
Variable syslog : bool.

Lemma resolvers_created_dns_try (url : string) :
  resolvers_created (trace (dns_try w url timeout)) = 1%nat.
Proof.
  unfold dns_try, call, bind; simpl.
  destruct (Resolver_init w); simpl; [reflexivity|].
  destruct (urlparse_hostname w url) as [d|]; simpl; [|reflexivity].
  destruct (resolver_query w d timeout); reflexivity.
Qed.

Lemma resolvers_created_passed (urls : list string) :
  resolvers_created (flat_map (fun x => trace (dns_try w x timeout)) urls)
  = List.length urls.
Proof.
  induction urls as [|u urls IH]; [reflexivity|].
  cbn [flat_map]. rewrite resolvers_created_app, resolvers_created_dns_try, IH.
  reflexivity.
Qed.

(** The URLs that resolve are walked through, one [try] each. *)
Lemma dns_check_app (pre rest : list string) :
  forallb (resolves w timeout) pre = true ->
  dns_check w (pre ++ rest) timeout syslog =
  mkRun (flat_map (fun x => trace (dns_try w x timeout)) pre
           ++ trace (dns_check w rest timeout syslog))
        (result (dns_check w rest timeout syslog)).
Proof.
  induction pre as [|u pre IH]; intros H.
  - cbn [app flat_map]. symmetry. apply run_eta.
  - cbn [forallb] in H. apply andb_true_iff in H. destruct H as [Hu Hpre].
    cbn [app flat_map]. rewrite (dns_check_cons_ok _ _ _ _ _ Hu).
    rewrite (IH Hpre). cbn [trace result]. rewrite app_assoc. reflexivity.
Qed.

Lemma dns_check_result (urls : list string) :
  result (dns_check w urls timeout syslog)
  = Return (forallb (resolves w timeout) urls).
Proof.
  induction urls as [|u urls IH].
  - rewrite dns_check_nil. reflexivity.
  - cbn [forallb]. destruct (resolves w timeout u) eqn:Hu.
    + rewrite (dns_check_cons_ok _ _ _ _ _ Hu). exact IH.
    + rewrite (dns_check_cons_fail _ _ _ _ _ Hu). reflexivity.
Qed.

End DnsCheck.

(** C1. [dns_check] passes exactly when every URL of the list resolves; at
    the first URL that does not, it returns fail at once: the run consists
    of one [try] for each URL before it, the [try] of that URL and its
    [except] branch, so the loop body ran [length pre + 1] times and nothing
    was done for the URLs after it. *)
Theorem dns_check_short_circuit
    (w : World) (timeout : Z) (syslog : bool) (urls : list string) :
  (result (dns_check w urls timeout syslog) = Return true
   <-> forallb (resolves w timeout) urls = true)
  /\ forall pre u post,
       urls = (pre ++ u :: post)%list ->
       forallb (resolves w timeout) pre = true ->
       resolves w timeout u = false ->
       result (dns_check w urls timeout syslog) = Return false
       /\ trace (dns_check w urls timeout syslog) =
          (flat_map (fun x => trace (dns_try w x timeout)) pre
             ++ trace (dns_try w u timeout) ++ trace (dns_except w u syslog))%list
       /\ resolvers_created (trace (dns_check w urls timeout syslog))
          = S (List.length pre).
Proof.
  split.
  - rewrite dns_check_result. split; intros H.
    + now injection H.
    + now rewrite H.
  - intros pre u post -> Hpre Hu.
    rewrite (dns_check_app _ _ _ _ _ Hpre).
    rewrite (dns_check_cons_fail _ _ _ _ _ Hu). cbn [trace result].
    repeat split.
    rewrite !resolvers_created_app, resolvers_created_passed,
      resolvers_created_dns_try.
    rewrite dns_except_run. cbn [trace].
    destruct syslog; cbn; lia.
Qed.

Lemma dns_check_short_circuit_witness :
  let urls := ["https://ok.example"; "https://bad.example"; "https://never.example"]%list in
  let r := dns_check (lab ship_gi2 None) urls 1 true in
  result r = Return false
  /\ dns_queries (trace r) = [Some "ok.example"; Some "bad.example"]%list
  /\ resolvers_created (trace r) = 2%nat.
Proof.
  intros urls r.
  destruct (dns_check_short_circuit (lab ship_gi2 None) 1 true urls) as [_ H].
  destruct (H ["https://ok.example"]%list "https://bad.example"
              ["https://never.example"]%list eq_refl eq_refl eq_refl)
    as [Hres [Htrace Hcount]].
  split; [exact Hres|]. split; [|exact Hcount].
  unfold r. rewrite Htrace. reflexivity.
Defined.

(** ** One iteration of [web_check] *)

Lemma isinstance_HTTPError (msg : string) :
  isinstance (HTTPError msg) RequestException = true.
Proof. reflexivity. Qed.

Lemma raise_for_status_ok (r : Response) :
  is_error_status (status_code r) = false -> raise_for_status r = ret tt.
Proof.
  unfold is_error_status, raise_for_status. intros H.
  destruct (400 <=? status_code r)%Z eqn:H1; simpl in *.
  - destruct (status_code r <? 500)%Z eqn:H2; simpl.
    + apply Z.ltb_lt in H2. apply Z.ltb_ge in H. lia.
    + rewrite H. rewrite andb_false_r. reflexivity.
  - destruct (500 <=? status_code r)%Z eqn:H3; simpl; [|reflexivity].
    apply Z.leb_le in H3. apply Z.leb_gt in H1. lia.
Qed.

Lemma raise_for_status_error (r : Response) :
  is_error_status (status_code r) = true ->
  exists msg, raise_for_status r = raise (HTTPError msg).
Proof.
  unfold is_error_status, raise_for_status. intros H.
  apply andb_true_iff in H. destruct H as [H1 H2]. rewrite H1. simpl.
  destruct (status_code r <? 500)%Z eqn:H3; [eauto|].
  apply Z.ltb_ge in H3.
  replace (500 <=? status_code r)%Z with true by (symmetry; apply Z.leb_le; lia).
  rewrite H2. simpl. eauto.
Qed.

Section WebLoop.

Variable w : World.
Variable timeout : Z.
Variable syslog : bool.

Lemma web_try_responds (url : string) :
  responds w timeout url = true ->
  web_try w url timeout =
  mkRun [HttpGet url timeout; Print ("Web check for url " ++ url ++ " ... passed!")]
        (Return tt).
Proof.
  unfold responds, web_try, call_value. cbn [world answering]. intros H.
  destruct (requests_get w url timeout) as [r|e]; [|discriminate].
  apply negb_true_iff in H.
  unfold bind at 1. cbn [result trace].
  rewrite (raise_for_status_ok r H). reflexivity.
Qed.

Lemma web_try_error_status (url : string) (r : Response) :
  requests_get w url timeout = Return r ->
  is_error_status (status_code r) = true ->
  exists msg, web_try w url timeout = mkRun [HttpGet url timeout] (Raise (HTTPError msg)).
Proof.
  unfold web_try, call_value. cbn [world answering]. intros -> H.
  destruct (raise_for_status_error r H) as [msg Hmsg]. exists msg.
  unfold bind at 1. cbn [result trace]. rewrite Hmsg. reflexivity.
Qed.

Lemma web_try_raise (url : string) (e : exn) :
  requests_get w url timeout = Raise e ->
  web_try w url timeout = mkRun [HttpGet url timeout] (Raise e).
Proof.
  unfold web_try, call_value. cbn [world answering]. intros ->. reflexivity.
Qed.

Lemma web_error_responds (url : string) :
  web_error w timeout url = None <-> responds w timeout url = true.
Proof.
  unfold web_error. split.
  - unfold responds. destruct (requests_get w url timeout) as [r|e] eqn:Hget.
    + destruct (is_error_status (status_code r)) eqn:Hs; [|reflexivity].
      destruct (web_try_error_status url r Hget Hs) as [msg ->]. discriminate.
    + rewrite (web_try_raise url e Hget). discriminate.
  - intros H. rewrite (web_try_responds url H). reflexivity.
Qed.

Lemma web_error_refused (url : string) :
  refused w timeout url = true <->
  exists e, web_error w timeout url = Some e /\ isinstance e RequestException = true.
Proof.
  unfold web_error, refused. split.
  - destruct (requests_get w url timeout) as [r|e] eqn:Hget; intros H.
    + destruct (web_try_error_status url r Hget H) as [msg ->].
      exists (HTTPError msg). split; reflexivity.
    + rewrite (web_try_raise url e Hget). exists e. split; [reflexivity|exact H].
  - intros [e [H He]].
    destruct (requests_get w url timeout) as [r|e'] eqn:Hget.
    + destruct (is_error_status (status_code r)) eqn:Hs; [reflexivity|].
      assert (Hr : responds w timeout url = true)
        by (unfold responds; rewrite Hget, Hs; reflexivity).
      rewrite (web_try_responds url Hr) in H. discriminate.
    + rewrite (web_try_raise url e' Hget) in H. cbn in H. congruence.
Qed.

Lemma web_error_crash (url : string) (e : exn) :
  web_error w timeout url = Some e ->
  isinstance e RequestException = false ->
  requests_get w url timeout = Raise e.
Proof.
  unfold web_error. intros H He.
  destruct (requests_get w url timeout) as [r|e'] eqn:Hget.
  - destruct (is_error_status (status_code r)) eqn:Hs.
    + destruct (web_try_error_status url r Hget Hs) as [msg Hmsg].
      rewrite Hmsg in H. cbn in H. injection H as <-.
      rewrite isinstance_HTTPError in He. discriminate.
    + assert (Hr : responds w timeout url = true)
        by (unfold responds; rewrite Hget, Hs; reflexivity).
      rewrite (web_try_responds url Hr) in H. discriminate.
  - rewrite (web_try_raise url e' Hget) in H. cbn in H. congruence.
Qed.

Lemma http_gets_web_try (url : string) :
  http_gets (trace (web_try w url timeout)) = [url].
Proof.
  destruct (requests_get w url timeout) as [r|e] eqn:Hget.
  - destruct (is_error_status (status_code r)) eqn:Hs.
    + destruct (web_try_error_status url r Hget Hs) as [msg ->]. reflexivity.
    + rewrite web_try_responds; [reflexivity|].
      unfold responds. rewrite Hget, Hs. reflexivity.
  - rewrite (web_try_raise url e Hget). reflexivity.
Qed.

Lemma web_except_run (url : string) (e : exn) :
  web_except w url syslog e =
  mkRun (Print ("Web check for url " ++ url ++ " ... failed: "
                  ++ exn_name e ++ ": " ++ exn_str e)
           :: if syslog
              then [Cli (syslog_prefix ++ "Web check for url " ++ url
                           ++ " ... failed due to " ++ exn_name e)]
              else [])
        (Return (Some false)).
Proof. unfold web_except. destruct syslog; reflexivity. Qed.

Lemma web_check_nil :
  web_check w [] timeout syslog =
  mkRun (Print "All web checks passed successfully!"
           :: if syslog
              then [Cli (syslog_prefix ++ "All web checks passed successfully!")]
              else [])
        (Return true).
Proof. simpl. destruct syslog; reflexivity. Qed.

Lemma web_check_cons_ok (url : string) (urls : list string) :
  web_error w timeout url = None ->
  web_check w (url :: urls) timeout syslog =
  mkRun (trace (web_try w url timeout) ++ trace (web_check w urls timeout syslog))
        (result (web_check w urls timeout syslog)).
Proof.
  unfold web_error. intros H.
  destruct (result (web_try w url timeout)) as [[]|] eqn:Hr; [|discriminate].
  cbn [web_check].
  rewrite (bind_return (web_try w url timeout) tt _ Hr).
  rewrite try_except_return with (a := None) by reflexivity.
  rewrite bind_return with (a := None) by reflexivity.
  cbn [trace result ret]. rewrite app_nil_r. reflexivity.
Qed.

Lemma web_check_cons_fail (url : string) (urls : list string) (e : exn) :
  web_error w timeout url = Some e ->
  isinstance e RequestException = true ->
  web_check w (url :: urls) timeout syslog =
  mkRun (trace (web_try w url timeout) ++ trace (web_except w url syslog e))
        (Return false).
Proof.
  unfold web_error. intros H He.
  destruct (result (web_try w url timeout)) as [|e'] eqn:Hr; [discriminate|].
  injection H as ->.
  cbn [web_check].
  rewrite (bind_raise (web_try w url timeout) e _ Hr).
  rewrite try_except_caught with (e := e) by (reflexivity || exact He).
  rewrite web_except_run.
  rewrite bind_return with (a := Some false) by reflexivity.
  cbn [trace result ret]. rewrite app_nil_r. reflexivity.
Qed.

Lemma web_check_cons_crash (url : string) (urls : list string) (e : exn) :
  web_error w timeout url = Some e ->
  isinstance e RequestException = false ->
  web_check w (url :: urls) timeout syslog =
  mkRun (trace (web_try w url timeout)) (Raise e).
Proof.
  unfold web_error. intros H He.
  destruct (result (web_try w url timeout)) as [|e'] eqn:Hr; [discriminate|].
  injection H as ->.
  cbn [web_check].
  rewrite (bind_raise (web_try w url timeout) e _ Hr).
  rewrite try_except_uncaught with (e := e) by (reflexivity || exact He).
  rewrite bind_raise with (e := e) by reflexivity. reflexivity.
Qed.

Lemma web_check_app (pre rest : list string) :
  forallb (responds w timeout) pre = true ->
  web_check w (pre ++ rest) timeout syslog =
  mkRun (flat_map (fun x => trace (web_try w x timeout)) pre
           ++ trace (web_check w rest timeout syslog))
        (result (web_check w rest timeout syslog)).
Proof.
  induction pre as [|u pre IH]; intros H.
  - cbn [app flat_map]. symmetry. apply run_eta.
  - cbn [forallb] in H. apply andb_true_iff in H. destruct H as [Hu Hpre].
    apply web_error_responds in Hu.
    cbn [app flat_map]. rewrite (web_check_cons_ok _ _ Hu).
    rewrite (IH Hpre). cbn [trace result]. rewrite app_assoc. reflexivity.
Qed.

Lemma http_gets_passed (urls : list string) :
  http_gets (flat_map (fun x => trace (web_try w x timeout)) urls) = urls.
Proof.
  induction urls as [|u urls IH]; [reflexivity|].
  cbn [flat_map]. rewrite http_gets_app, http_gets_web_try, IH. reflexivity.
Qed.

Lemma web_check_pass_iff (urls : list string) :
  result (web_check w urls timeout syslog) = Return true
  <-> forallb (responds w timeout) urls = true.
Proof.
  induction urls as [|u urls IH].
  - rewrite web_check_nil. cbn. tauto.
  - cbn [forallb]. destruct (web_error w timeout u) as [e|] eqn:Hu.
    + assert (Hn : responds w timeout u = false).
      { destruct (responds w timeout u) eqn:Hr; [|reflexivity].
        apply web_error_responds in Hr. congruence. }
      rewrite Hn. cbn [andb].
      destruct (isinstance e RequestException) eqn:He.
      * rewrite (web_check_cons_fail _ _ _ Hu He). cbn. split; discriminate.
      * rewrite (web_check_cons_crash _ _ _ Hu He). cbn. split; discriminate.
    + rewrite (web_check_cons_ok _ _ Hu). cbn [result].
      apply web_error_responds in Hu. rewrite Hu. exact IH.
Qed.

(** An exception leaves [web_check] only from a GET, and only when it is
    not a [RequestException]. *)
Lemma web_check_raise (urls : list string) (e : exn) :
  result (web_check w urls timeout syslog) = Raise e ->
  exists pre u post,
    urls = (pre ++ u :: post)%list
    /\ forallb (responds w timeout) pre = true
    /\ requests_get w u timeout = Raise e
    /\ isinstance e RequestException = false.
Proof.
  induction urls as [|u urls IH].
  - rewrite web_check_nil. discriminate.
  - destruct (web_error w timeout u) as [e'|] eqn:Hu.
    + destruct (isinstance e' RequestException) eqn:He.
      * rewrite (web_check_cons_fail _ _ _ Hu He). discriminate.
      * rewrite (web_check_cons_crash _ _ _ Hu He). cbn. intros [= <-].
        exists [], u, urls. repeat split; [|exact He].
        exact (web_error_crash _ _ Hu He).
    + rewrite (web_check_cons_ok _ _ Hu). cbn [result]. intros H.
      destruct (IH H) as [pre [u' [post [-> [Hpre [Hget He]]]]]].
      exists (u :: pre), u', post. repeat split; [|exact Hget|exact He].
      cbn [forallb]. apply web_error_responds in Hu. rewrite Hu. exact Hpre.
Qed.

End WebLoop.

(** C2, as the code has it.  [web_check] passes exactly when every URL
    gets a response whose status is not 4xx or 5xx, which is what
    [raise_for_status] accepts: every 2xx status, and the others below 400
    as well.  At the first URL that is refused (the GET raises a
    [RequestException], or the status is 4xx or 5xx) it returns fail, and
    the GETs issued are those of the URLs before it and its own. *)
Theorem web_check_short_circuit
    (w : World) (timeout : Z) (syslog : bool) (urls : list string) :
  (result (web_check w urls timeout syslog) = Return true
   <-> forallb (responds w timeout) urls = true)
  /\ (forall u, responds_2xx w timeout u = true -> responds w timeout u = true)
  /\ forall pre u post,
       urls = (pre ++ u :: post)%list ->
       forallb (responds w timeout) pre = true ->
       refused w timeout u = true ->
       result (web_check w urls timeout syslog) = Return false
       /\ http_gets (trace (web_check w urls timeout syslog)) = (pre ++ [u])%list.
Proof.
  split; [apply web_check_pass_iff|]. split.
  - intros u. unfold responds_2xx, responds.
    destruct (requests_get w u timeout) as [r|]; [|discriminate].
    unfold is_2xx, is_error_status. intros H.
    apply andb_true_iff in H. destruct H as [_ H]. apply Z.ltb_lt in H.
    apply negb_true_iff, andb_false_iff. left. apply Z.leb_gt. lia.
  - intros pre u post -> Hpre Hu.
    apply web_error_refused in Hu. destruct Hu as [e [Hu He]].
    rewrite (web_check_app _ _ _ _ _ Hpre).
    rewrite (web_check_cons_fail _ _ _ _ _ _ Hu He). cbn [trace result].
    split; [reflexivity|].
    rewrite !http_gets_app, http_gets_passed, http_gets_web_try.
    rewrite web_except_run. cbn [trace]. destruct syslog; cbn; reflexivity.
Qed.

Lemma web_check_short_circuit_witness :
  let urls := ["https://ok.example"; "https://missing.example"; "https://never.example"]%list in
  let r := web_check (lab ship_gi2 None) urls 1 true in
  result r = Return false
  /\ http_gets (trace r) = ["https://ok.example"; "https://missing.example"]%list.
Proof.
  intros urls r.
  destruct (web_check_short_circuit (lab ship_gi2 None) 1 true urls) as [_ [_ H]].
  exact (H ["https://ok.example"]%list "https://missing.example"
           ["https://never.example"]%list eq_refl eq_refl eq_refl).
Defined.

(** C2 as stated fails: a response with status 304 is not 2xx, and the URL
    passes. *)
Lemma web_check_passes_on_304 :
  let w := lab ship_gi2 None in
  let url := "https://cached.example" in
  requests_get w url 1 = Return (mkResponse 304 "Not Modified" url)
  /\ responds_2xx w 1 url = false
  /\ result (web_check w [url] 1 false) = Return true
  /\ printed_lines (trace (web_check w [url] 1 false)) =
     ["Web check for url https://cached.example ... passed!";
      "All web checks passed successfully!"]%list.
Proof. repeat split. Qed.

(** ** [checks] *)

Section Checks.

Variable w : World.
Variable g : Globals.
Variable syslog : bool.

Let d := dns_check w (WEB_HOSTS g) 1 syslog.
Let h := web_check w (WEB_HOSTS g) 1 syslog.

Lemma checks_dns_failed :
  result d = Return false ->
  checks w g syslog = mkRun (trace d) (Raise AssertionError).
Proof.
  intros Hd. unfold checks. fold d.
  rewrite (bind_return d false _ Hd). cbn [assert raise trace result].
  rewrite bind_raise with (e := AssertionError) by reflexivity.
  cbn [trace]. rewrite app_nil_r. reflexivity.
Qed.

Lemma checks_dns_passed :
  result d = Return true ->
  checks w g syslog =
  mkRun (trace d ++ trace h)
        match result h with
        | Return true => Return tt
        | Return false => Raise AssertionError
        | Raise e => Raise e
        end.
Proof.
  intros Hd. unfold checks. fold d h.
  rewrite (bind_return d true _ Hd). cbn [assert ret trace result].
  rewrite bind_return with (a := tt) by reflexivity.
  cbn [trace]. rewrite app_nil_r.
  destruct (result h) as [[|]|e] eqn:Hh.
  - rewrite (bind_return h true _ Hh). cbn. rewrite app_nil_r. reflexivity.
  - rewrite (bind_return h false _ Hh). cbn. rewrite app_nil_r. reflexivity.
  - rewrite (bind_raise h e _ Hh). reflexivity.
Qed.

End Checks.

Lemma http_gets_dns_check (w : World) (timeout : Z) (syslog : bool) (urls : list string) :
  http_gets (trace (dns_check w urls timeout syslog)) = [].
Proof.
  induction urls as [|u urls IH].
  - rewrite dns_check_nil. destruct syslog; reflexivity.
  - assert (Htry : http_gets (trace (dns_try w u timeout)) = []).
    { unfold dns_try, call, bind; simpl.
      destruct (Resolver_init w); simpl; [reflexivity|].
      destruct (urlparse_hostname w u) as [dom|]; simpl; [|reflexivity].
      destruct (resolver_query w dom timeout); reflexivity. }
    destruct (resolves w timeout u) eqn:Hu.
    + rewrite (dns_check_cons_ok _ _ _ _ _ Hu). cbn [trace].
      rewrite http_gets_app, Htry, IH. reflexivity.
    + rewrite (dns_check_cons_fail _ _ _ _ _ Hu). cbn [trace].
      rewrite http_gets_app, Htry, dns_except_run. destruct syslog; reflexivity.
Qed.

(** C3. [checks] returns (the batch passes) exactly when [dns_check] and
    [web_check] both return [True].  When [dns_check] returns [False] the
    batch fails with the run of [dns_check] alone: [web_check] is not
    called and no GET is issued.  When [dns_check] passes and [web_check]
    returns [False] the batch fails after both ran. *)
Theorem checks_both (w : World) (g : Globals) (syslog : bool) :
  let d := dns_check w (WEB_HOSTS g) 1 syslog in
  let h := web_check w (WEB_HOSTS g) 1 syslog in
  let c := checks w g syslog in
  (result c = Return tt <-> result d = Return true /\ result h = Return true)
  /\ (result d = Return false ->
      result c = Raise AssertionError
      /\ trace c = trace d /\ http_gets (trace c) = [])
  /\ (result d = Return true -> result h = Return false ->
      result c = Raise AssertionError
      /\ trace c = (trace d ++ trace h)%list).
Proof.
  intros d h c. split; [|split].
  - unfold c. pose proof (dns_check_result w 1 syslog (WEB_HOSTS g)) as Hd.
    fold d in Hd. destruct (forallb (resolves w 1) (WEB_HOSTS g)).
    + rewrite (checks_dns_passed w g syslog Hd). fold h. cbn [result].
      destruct (result h) as [[|]|e]; split; try tauto; try discriminate;
        intros [_ H]; discriminate.
    + rewrite (checks_dns_failed w g syslog Hd). cbn [result].
      split; [discriminate|]. intros [H _]. congruence.
  - intros Hd. unfold c. rewrite (checks_dns_failed w g syslog Hd).
    cbn [result trace]. repeat split. apply http_gets_dns_check.
  - intros Hd Hh. unfold c. rewrite (checks_dns_passed w g syslog Hd).
    fold h. rewrite Hh. split; reflexivity.
Qed.

Lemma checks_both_witness :
  let w := lab ship_gi2 None in
  let g1 := mkGlobals "192.168.101.103" "Future_Gladiator.mp3"
              ["https://ok.example"; "https://bad.example"]%list in
  let g2 := mkGlobals "192.168.101.103" "Future_Gladiator.mp3"
              ["https://ok.example"; "https://down.example"]%list in
  (result (checks w g1 false) = Raise AssertionError
   /\ trace (checks w g1 false) = trace (dns_check w (WEB_HOSTS g1) 1 false)
   /\ http_gets (trace (checks w g1 false)) = [])
  /\ (result (checks w g2 false) = Raise AssertionError
      /\ trace (checks w g2 false) =
         (trace (dns_check w (WEB_HOSTS g2) 1 false)
            ++ trace (web_check w (WEB_HOSTS g2) 1 false))%list).
Proof.
  intros w g1 g2. split.
  - destruct (checks_both w g1 false) as [_ [H _]]. exact (H eq_refl).
  - destruct (checks_both w g2 false) as [_ [_ H]]. exact (H eq_refl eq_refl).
Defined.

(** ** The pattern and the dotted quads *)

Lemma string_app_assoc (a b c : string) : (a ++ b) ++ c = a ++ b ++ c.
Proof. induction a as [|x a IH]; simpl; [reflexivity|]. now rewrite IH. Qed.

Ltac string_norm :=
  repeat first [rewrite string_app_assoc | progress (cbn [append])].

Lemma digits_app (a b : string) : digits a -> digits b -> digits (a ++ b).
Proof.
  unfold digits. induction a as [|x a IH]; simpl; intros Ha Hb; [exact Hb|].
  apply andb_true_iff in Ha. destruct Ha as [Hx Ha].
  rewrite Hx. simpl. exact (IH Ha Hb).
Qed.

(** [span_digits] splits the string, and what it takes is digits. *)
Lemma span_digits_split (s d r : string) :
  span_digits s = (d, r) -> s = d ++ r /\ digits d.
Proof.
  revert d r. induction s as [|c s IH]; simpl; intros d r H.
  - injection H as <- <-. split; reflexivity.
  - destruct (is_digit c) eqn:Hc.
    + destruct (span_digits s) as [d' r'] eqn:Hs. injection H as <- <-.
      destruct (IH d' r' eq_refl) as [-> Hd]. split; [reflexivity|].
      unfold digits. simpl. rewrite Hc. exact Hd.
    + injection H as <- <-. split; reflexivity.
Qed.

(** Digits at the head are all taken. *)
Lemma span_digits_app (d r : string) :
  digits d ->
  span_digits (d ++ r) = (d ++ fst (span_digits r), snd (span_digits r)).
Proof.
  unfold digits. induction d as [|c d IH]; simpl; intros H.
  - destruct (span_digits r); reflexivity.
  - apply andb_true_iff in H. destruct H as [Hc Hd]. rewrite Hc.
    rewrite (IH Hd). reflexivity.
Qed.

Lemma match_digits_sound (s d r : string) :
  match_digits s = Some (d, r) -> number d /\ s = d ++ r.
Proof.
  unfold match_digits. destruct (span_digits s) as [d' r'] eqn:Hs.
  destruct (span_digits_split _ _ _ Hs) as [-> Hd].
  destruct d' as [|c d']; [discriminate|]. intros [= <- <-].
  split; [split; [discriminate|exact Hd]|reflexivity].
Qed.

Lemma match_digits_complete (d r : string) :
  number d ->
  exists d' r', match_digits (d ++ r) = Some (d ++ d', r') /\ r = d' ++ r'.
Proof.
  intros [Hne Hd]. unfold match_digits. rewrite (span_digits_app d r Hd).
  destruct (span_digits r) as [d' r'] eqn:Hr. cbn [fst snd].
  exists d', r'. split.
  - destruct d as [|c d]; [congruence|]. reflexivity.
  - exact (proj1 (span_digits_split _ _ _ Hr)).
Qed.

(** Before a dot the run of digits stops. *)
Lemma match_digits_dot (d r : string) :
  number d ->
  match_digits (d ++ String "."%char r) = Some (d, String "."%char r).
Proof.
  intros [Hne Hd]. unfold match_digits. rewrite (span_digits_app _ _ Hd).
  assert (Hdot : is_digit "."%char = false) by reflexivity.
  cbn [span_digits]. rewrite Hdot. cbn [fst snd].
  assert (E : d ++ "" = d) by (clear; induction d; simpl; congruence).
  rewrite E. destruct d; [congruence|reflexivity].
Qed.

Lemma match_dot_digits_sound (s x r : string) :
  match_dot_digits s = Some (x, r) ->
  exists d, number d /\ x = String "."%char d /\ s = x ++ r.
Proof.
  unfold match_dot_digits. destruct s as [|c s]; [discriminate|].
  destruct (Ascii.eqb c "."%char) eqn:Hc.
  - apply Ascii.eqb_eq in Hc. subst c.
    destruct (match_digits s) as [[d r']|] eqn:Hs; [|discriminate].
    intros [= <- <-]. destruct (match_digits_sound _ _ _ Hs) as [Hd ->].
    exists d. repeat split; assumption || apply Hd.
  - intros H. exfalso.
    destruct c as [[] [] [] [] [] [] [] []]; try discriminate H.
    discriminate Hc.
Qed.

Lemma match_quad_sound (s m r : string) :
  match_quad s = Some (m, r) -> dotted_quad m /\ s = m ++ r.
Proof.
  unfold match_quad.
  destruct (match_digits s) as [[a r1]|] eqn:H1; [|discriminate].
  destruct (match_dot_digits r1) as [[x2 r2]|] eqn:H2; [|discriminate].
  destruct (match_dot_digits r2) as [[x3 r3]|] eqn:H3; [|discriminate].
  destruct (match_dot_digits r3) as [[x4 r4]|] eqn:H4; [|discriminate].
  intros [= <- <-].
  destruct (match_digits_sound _ _ _ H1) as [Ha ->].
  destruct (match_dot_digits_sound _ _ _ H2) as [b [Hb [-> ->]]].
  destruct (match_dot_digits_sound _ _ _ H3) as [c [Hc [-> ->]]].
  destruct (match_dot_digits_sound _ _ _ H4) as [d [Hd [-> ->]]].
  split.
  - exists a, b, c, d.
    split; [exact Ha|]. split; [exact Hb|]. split; [exact Hc|].
    split; [exact Hd|]. string_norm. reflexivity.
  - string_norm. reflexivity.
Qed.

Lemma match_quad_complete (q post : string) :
  dotted_quad q -> exists m r, match_quad (q ++ post) = Some (m, r).
Proof.
  intros [a [b [c [d [Ha [Hb [Hc [Hd ->]]]]]]]].
  string_norm.
  unfold match_quad. rewrite (match_digits_dot a _ Ha).
  cbn [match_dot_digits]. rewrite (match_digits_dot b _ Hb).
  cbn [match_dot_digits]. rewrite (match_digits_dot c _ Hc).
  cbn [match_dot_digits].
  destruct (match_digits_complete d post Hd) as [d' [r' [-> _]]].
  eauto.
Qed.

(** [findall] finds nothing exactly in the strings without a dotted quad. *)
Lemma findall_quad_nil (s : string) :
  findall_quad s = [] <-> ~ contains_dotted_quad s.
Proof.
  unfold findall_quad. split.
  - intros H [pre [q [post [Hq ->]]]]. revert H.
    induction pre as [|c pre IH]; intros H.
    + destruct (match_quad_complete q post Hq) as [m [r Hm]].
      cbn [append] in H. destruct (q ++ post) as [|c s] eqn:Hs.
      * cbn in Hm. discriminate.
      * cbn [findall_from] in H. rewrite Hm in H. discriminate.
    + cbn [append findall_from] in H.
      destruct (match_quad (String c (pre ++ q ++ post))) as [[m r]|];
        [discriminate|]. exact (IH H).
  - induction s as [|c s IH]; intros H; [reflexivity|].
    cbn [findall_from].
    destruct (match_quad (String c s)) as [[m r]|] eqn:Hm.
    + exfalso. apply H. destruct (match_quad_sound _ _ _ Hm) as [Hq Hs].
      exists "", m, r. split; [exact Hq|exact Hs].
    + apply IH. intros [pre [q [post [Hq ->]]]]. apply H.
      exists (String c pre), q, post. split; [exact Hq|reflexivity].
Qed.

(** ** The alert *)

Lemma port_string : Z_to_string 45114 = "45114".
Proof. reflexivity. Qed.

Section Alert.

Variable w : World.
Variable g : Globals.

Lemma server_up_run :
  server_up = mkRun [ThreadStart; Print "starting server on port 45114"] (Return tt).
Proof. reflexivity. Qed.

Lemma server_down_run :
  server_down = mkRun [ServerShutdown; Print "stopping server on port 45114"] (Return tt).
Proof. reflexivity. Qed.

Lemma audio_play_no_match :
  findall_quad (cli_output w "show ip int bri gi2") = [] ->
  audio_play w g = mkRun [Cli "show ip int bri gi2"] (Raise IndexError).
Proof.
  intros H. unfold audio_play, cli. cbn [world answering cli_refusal].
  rewrite bind_return with (a := cli_output w "show ip int bri gi2")
    by reflexivity.
  cbn [trace result ret emit bind app call_value]. rewrite H.
  unfold bind. reflexivity.
Qed.

Lemma audio_play_match (host : string) (others : list string) :
  findall_quad (cli_output w "show ip int bri gi2") = (host :: others)%list ->
  audio_play w g =
  mkRun (Cli "show ip int bri gi2" :: CastConnect (CASTIPADDR g)
           :: match Chromecast_init w (CASTIPADDR g) with
              | None => [PlayMedia (media_url g host) "audio/mp3"]
              | Some _ => []
              end)
        match Chromecast_init w (CASTIPADDR g) with
        | Some e => Raise e
        | None =>
            match play_media w (media_url g host) "audio/mp3" with
            | Some e => Raise e
            | None => Return tt
            end
        end.
Proof.
  intros H. unfold audio_play, cli. cbn [world answering cli_refusal].
  rewrite bind_return with (a := cli_output w "show ip int bri gi2")
    by reflexivity.
  cbn [trace result ret emit bind app call_value]. rewrite H.
  rewrite port_string. unfold media_url, call, bind. cbn [result trace ret app].
  destruct (Chromecast_init w (CASTIPADDR g)); [reflexivity|].
  cbn [app].
  destruct (play_media w _ "audio/mp3"); reflexivity.
Qed.

Lemma alert_run :
  alert w g =
  mkRun (ThreadStart :: Print "starting server on port 45114"
           :: trace (audio_play w g)
           ++ match result (audio_play w g) with
              | Return _ => [ServerShutdown; Print "stopping server on port 45114"]
              | Raise _ => []
              end)
        (result (audio_play w g)).
Proof.
  unfold alert. rewrite server_up_run, server_down_run.
  rewrite bind_return with (a := tt) by reflexivity. cbn [trace app].
  destruct (result (audio_play w g)) as [[]|e] eqn:Hp.
  - rewrite (bind_return _ tt _ Hp). reflexivity.
  - rewrite (bind_raise _ e _ Hp). cbn [trace result]. rewrite app_nil_r.
    reflexivity.
Qed.

(** [audio_play] talks to the device and to the speaker only. *)
Lemma audio_play_events :
  server_starts (trace (audio_play w g)) = 0%nat
  /\ server_stops (trace (audio_play w g)) = 0%nat
  /\ printed_lines (trace (audio_play w g)) = []
  /\ syslog_lines (trace (audio_play w g)) = [].
Proof.
  destruct (findall_quad (cli_output w "show ip int bri gi2")) as [|host others] eqn:H.
  - rewrite (audio_play_no_match H). repeat split.
  - rewrite (audio_play_match _ _ H).
    destruct (Chromecast_init w (CASTIPADDR g)); repeat split.
Qed.

End Alert.

(** C4, as the code has it.  A dispatch starts the server once, before
    anything [audio_play] does, so before the play command.  The server is
    stopped, once and after [audio_play], exactly when [audio_play]
    returns; when [audio_play] raises, the exception leaves the dispatch and
    [server_down] is not run. *)
Theorem alert_server_lifecycle (w : World) (g : Globals) :
  let a := alert w g in
  let p := audio_play w g in
  trace a =
    (ThreadStart :: Print "starting server on port 45114" :: trace p
       ++ match result p with
          | Return _ => [ServerShutdown; Print "stopping server on port 45114"]
          | Raise _ => []
          end)%list
  /\ result a = result p
  /\ server_starts (trace p) = 0%nat
  /\ server_stops (trace p) = 0%nat
  /\ server_starts (trace a) = 1%nat
  /\ server_stops (trace a) =
     match result p with Return _ => 1%nat | Raise _ => 0%nat end.
Proof.
  intros a p. unfold a. rewrite alert_run. fold p. cbn [trace result].
  destruct (audio_play_events w g) as [Hs [Ht _]]. fold p in Hs, Ht.
  repeat split; try assumption.
  - change (ThreadStart :: ?x) with ([ThreadStart] ++ x)%list.
    rewrite server_starts_app.
    change (Print ?l :: ?x) with ([Print l] ++ x)%list.
    rewrite !server_starts_app, Hs. destruct (result p); reflexivity.
  - change (ThreadStart :: ?x) with ([ThreadStart] ++ x)%list.
    rewrite server_stops_app.
    change (Print ?l :: ?x) with ([Print l] ++ x)%list.
    rewrite !server_stops_app, Ht. destruct (result p); reflexivity.
Qed.

(** C4 as stated fails: the speaker refuses the play command, the server
    has been started, and it is never stopped. *)
Lemma alert_leaves_server_running :
  let a := alert (lab ship_gi2 (Some NotConnected)) conf_check in
  result a = Raise NotConnected
  /\ play_commands (trace a) = ["http://192.168.101.1:45114/Future_Gladiator.mp3"]%list
  /\ server_starts (trace a) = 1%nat
  /\ server_stops (trace a) = 0%nat.
Proof. repeat split. Qed.

(** C10. When the output of [show ip int bri gi2] contains no dotted quad,
    [findall] returns the empty list and [[0]] raises [IndexError]:
    [audio_play] has only sent the command to the device, and the alert ends
    there, the server started, no connection to the speaker and no play
    command. *)
Theorem audio_play_index_error (w : World) (g : Globals) :
  ~ contains_dotted_quad (cli_output w "show ip int bri gi2") ->
  audio_play w g = mkRun [Cli "show ip int bri gi2"] (Raise IndexError)
  /\ alert w g =
     mkRun [ThreadStart; Print "starting server on port 45114";
            Cli "show ip int bri gi2"]
           (Raise IndexError).
Proof.
  intros H. apply findall_quad_nil in H.
  assert (Hp := audio_play_no_match w g H).
  split; [exact Hp|]. rewrite alert_run, Hp. reflexivity.
Qed.

Lemma audio_play_index_error_witness :
  audio_play (lab ship_unassigned None) conf_check
  = mkRun [Cli "show ip int bri gi2"] (Raise IndexError)
  /\ alert (lab ship_unassigned None) conf_check =
     mkRun [ThreadStart; Print "starting server on port 45114";
            Cli "show ip int bri gi2"]
           (Raise IndexError).
Proof.
  apply (audio_play_index_error (lab ship_unassigned None) conf_check).
  apply findall_quad_nil. vm_compute. reflexivity.
Defined.

(** ** What the checks leave in the trace *)

Lemma check_event_line (t : list event) :
  forallb check_event t = true ->
  (In "Network Error!" (printed_lines t) -> False)
  /\ (In "Network Error!" (syslog_lines t) -> False)
  /\ server_starts t = 0%nat.
Proof.
  induction t as [|ev t IH]; intros H.
  - repeat split; intros [].
  - cbn [forallb] in H. apply andb_true_iff in H. destruct H as [Hev Ht].
    destruct (IH Ht) as [Hp [Hs Hn]].
    destruct ev; cbn [check_event] in Hev; try discriminate;
      unfold printed_lines, syslog_lines, server_starts in *;
      cbn [flat_map filter app]; try (repeat split; assumption).
    + repeat split; try assumption.
      intros [E|E]; [|exact (Hp E)]. subst line. discriminate.
    + destruct (strip_prefix syslog_prefix command) as [m|]; [|discriminate].
      repeat split; try assumption.
      intros [E|E]; [|exact (Hs E)]. subst m. discriminate.
Qed.

Lemma check_event_dns_check (w : World) (timeout : Z) (syslog : bool)
    (urls : list string) :
  forallb check_event (trace (dns_check w urls timeout syslog)) = true.
Proof.
  assert (Hfail : forall u,
    check_event (Cli (syslog_prefix ++ "DNS check for url " ++ u ++ " ... failed")) = true).
  { intros u. cbn [check_event]. rewrite strip_prefix_app. reflexivity. }
  induction urls as [|u urls IH].
  - rewrite dns_check_nil. destruct syslog; reflexivity.
  - assert (Htry : forallb check_event (trace (dns_try w u timeout)) = true).
    { unfold dns_try, call, bind; simpl.
      destruct (Resolver_init w); simpl; [reflexivity|].
      destruct (urlparse_hostname w u) as [dom|]; simpl; [|reflexivity].
      destruct (resolver_query w dom timeout); reflexivity. }
    destruct (resolves w timeout u) eqn:Hu.
    + rewrite (dns_check_cons_ok _ _ _ _ _ Hu). cbn [trace].
      rewrite forallb_app, Htry, IH. reflexivity.
    + rewrite (dns_check_cons_fail _ _ _ _ _ Hu). cbn [trace].
      rewrite forallb_app, Htry, dns_except_run. cbn [trace forallb andb].
      destruct syslog; cbn [forallb]; [rewrite Hfail|]; reflexivity.
Qed.

Lemma check_event_web_try (w : World) (timeout : Z) (u : string) :
  forallb check_event (trace (web_try w u timeout)) = true.
Proof.
  destruct (requests_get w u timeout) as [r|e] eqn:Hget.
  - destruct (is_error_status (status_code r)) eqn:Hs.
    + destruct (web_try_error_status _ _ _ _ Hget Hs) as [msg ->]. reflexivity.
    + rewrite web_try_responds; [reflexivity|].
      unfold responds. rewrite Hget, Hs. reflexivity.
  - rewrite (web_try_raise _ _ _ _ Hget). reflexivity.
Qed.

Lemma check_event_web_check (w : World) (timeout : Z) (syslog : bool)
    (urls : list string) :
  forallb check_event (trace (web_check w urls timeout syslog)) = true.
Proof.
  assert (Hfail : forall u n,
    check_event (Cli (syslog_prefix ++ "Web check for url " ++ u
                        ++ " ... failed due to " ++ n)) = true).
  { intros u n. cbn [check_event]. rewrite strip_prefix_app. reflexivity. }
  induction urls as [|u urls IH].
  - rewrite web_check_nil. destruct syslog; reflexivity.
  - pose proof (check_event_web_try w timeout u) as Htry.
    destruct (web_error w timeout u) as [e|] eqn:Hu.
    + destruct (isinstance e RequestException) eqn:He.
      * rewrite (web_check_cons_fail _ _ _ _ _ _ Hu He). cbn [trace].
        rewrite forallb_app, Htry, web_except_run. cbn [trace forallb andb].
        destruct syslog; cbn [forallb]; [rewrite Hfail|]; reflexivity.
      * rewrite (web_check_cons_crash _ _ _ _ _ _ Hu He). exact Htry.
    + rewrite (web_check_cons_ok _ _ _ _ _ Hu). cbn [trace].
      rewrite forallb_app, Htry, IH. reflexivity.
Qed.

Lemma check_event_checks (w : World) (g : Globals) (syslog : bool) :
  forallb check_event (trace (checks w g syslog)) = true.
Proof.
  pose proof (dns_check_result w 1 syslog (WEB_HOSTS g)) as Hd.
  destruct (forallb (resolves w 1) (WEB_HOSTS g)).
  - rewrite (checks_dns_passed w g syslog Hd). cbn [trace].
    rewrite forallb_app, check_event_dns_check, check_event_web_check.
    reflexivity.
  - rewrite (checks_dns_failed w g syslog Hd). cbn [trace].
    apply check_event_dns_check.
Qed.

(** ** [main] *)

Lemma main_run (w : World) (g : Globals) (args : Args) :
  let c := checks w g (arg_syslog args) in
  main w g args =
  mkRun (trace c
           ++ if batch_failed c
              then Print "Network Error!"
                     :: (if arg_syslog args
                         then [Cli (syslog_prefix ++ "Network Error!")]
                         else [])
                     ++ (if arg_chromecast args then trace (alert w g) else [])
              else [])
        (if batch_failed c
         then if arg_chromecast args then result (alert w g) else Return tt
         else result c).
Proof.
  intros c. unfold main, batch_failed. fold c.
  destruct (result c) as [[]|e] eqn:Hc.
  - rewrite (try_except_return _ _ _ tt Hc). rewrite app_nil_r.
    rewrite <- Hc. symmetry. apply run_eta.
  - destruct (isinstance e AssertionError_cls) eqn:He.
    + rewrite try_except_caught with (e := e) by assumption.
      unfold print, when.
      destruct (arg_syslog args), (arg_chromecast args);
        rewrite ?send_syslog_run;
        cbn [emit ret bind trace result app];
        try (destruct (result (alert w g)));
        cbn [trace result app]; rewrite ?app_nil_r; reflexivity.
    + rewrite try_except_uncaught with (e := e) by assumption.
      rewrite app_nil_r. rewrite <- Hc. symmetry. apply run_eta.
Qed.

Lemma alert_lines (w : World) (g : Globals) :
  (In "Network Error!" (printed_lines (trace (alert w g))) -> False)
  /\ syslog_lines (trace (alert w g)) = []
  /\ server_starts (trace (alert w g)) = 1%nat.
Proof.
  rewrite alert_run. cbn [trace].
  destruct (audio_play_events w g) as [Hs [_ [Hp Hl]]].
  change (ThreadStart :: Print ?l :: ?x) with ([ThreadStart; Print l] ++ x)%list.
  rewrite printed_lines_app, syslog_lines_app, server_starts_app.
  rewrite !printed_lines_app, !syslog_lines_app, !server_starts_app.
  rewrite Hs, Hp, Hl.
  destruct (result (audio_play w g)); cbn; (split; [|split; reflexivity]);
    intuition discriminate.
Qed.

(** C7. [main] runs the batch; when it fails (it ends with an
    [AssertionError]) [main] prints [Network Error!], sends the same text
    to the device log if [--syslog] is set, and then runs the alert if
    [--chromecast] is set; in every other case [main] ends as the batch
    did, having done nothing more.  So the message is printed exactly when
    the batch fails, it is logged exactly when moreover [--syslog] is set,
    and the server of the alert is started exactly when moreover
    [--chromecast] is set. *)
Theorem main_reports_failure (w : World) (g : Globals) (args : Args) :
  let c := checks w g (arg_syslog args) in
  let m := main w g args in
  let failed := batch_failed c in
  trace m =
    (trace c
       ++ if failed
          then Print "Network Error!"
                 :: (if arg_syslog args
                     then [Cli (syslog_prefix ++ "Network Error!")]
                     else [])
                 ++ (if arg_chromecast args then trace (alert w g) else [])
          else [])%list
  /\ result m =
     (if failed
      then if arg_chromecast args then result (alert w g) else Return tt
      else result c)
  /\ (In "Network Error!" (printed_lines (trace m)) <-> failed = true)
  /\ (In "Network Error!" (syslog_lines (trace m))
      <-> failed = true /\ arg_syslog args = true)
  /\ server_starts (trace m) =
     (if (failed && arg_chromecast args)%bool then 1 else 0)%nat.
Proof.
  intros c m failed. unfold m. rewrite main_run. fold c failed.
  cbn [trace result]. split; [reflexivity|]. split; [reflexivity|].
  destruct (check_event_line _ (check_event_checks w g (arg_syslog args)))
    as [Hp [Hs Hn]]. fold c in Hp, Hs, Hn.
  destruct (alert_lines w g) as [Ap [As An]].
  rewrite printed_lines_app, syslog_lines_app, server_starts_app, Hn.
  destruct failed.
  - change (Print ?l :: ?x) with ([Print l] ++ x)%list.
    rewrite !printed_lines_app, !syslog_lines_app, !server_starts_app.
    destruct (arg_syslog args), (arg_chromecast args);
      rewrite ?As, ?An; cbn [printed_lines syslog_lines server_starts flat_map
                               filter app length andb Nat.add];
      rewrite ?strip_prefix_app; cbn [app];
      (split; [split; [reflexivity|]; intros _; apply in_or_app; right; left;
                 reflexivity|]);
      (split; [|reflexivity]);
      (split; [intros H; apply in_app_or in H; destruct H as [H|H];
                 [destruct (Hs H)|]|]).
    + split; reflexivity.
    + intros _. apply in_or_app. right. left. reflexivity.
    + split; reflexivity.
    + intros _. apply in_or_app. right. left. reflexivity.
    + destruct H.
    + intros [_ H]. discriminate.
    + destruct H.
    + intros [_ H]. discriminate.
  - rewrite !app_nil_r. cbn [andb].
    split; [split; [intros H; destruct (Hp H)|discriminate]|].
    split; [split; [intros H; destruct (Hs H)|intros [H _]; discriminate]|].
    reflexivity.
Qed.

(** C9. With an empty list of hosts both checks print their aggregate
    line and return [True] without a single probe, so [checks] returns and
    [main] ends there: no failure message, no server, no play command. *)
Theorem empty_host_list
    (w : World) (castip audio : string) (args : Args) (timeout : Z) (syslog : bool) :
  let g := mkGlobals castip audio [] in
  dns_check w [] timeout syslog =
    mkRun (Print "All dns checks passed successfully!"
             :: if syslog
                then [Cli (syslog_prefix ++ "All dns checks passed successfully!")]
                else [])
          (Return true)
  /\ web_check w [] timeout syslog =
    mkRun (Print "All web checks passed successfully!"
             :: if syslog
                then [Cli (syslog_prefix ++ "All web checks passed successfully!")]
                else [])
          (Return true)
  /\ result (checks w g syslog) = Return tt
  /\ result (main w g args) = Return tt
  /\ printed_lines (trace (main w g args)) =
     ["All dns checks passed successfully!"; "All web checks passed successfully!"]%list
  /\ server_starts (trace (main w g args)) = 0%nat
  /\ play_commands (trace (main w g args)) = [].
Proof.
  intros g. split; [apply dns_check_nil|]. split; [apply web_check_nil|].
  destruct args as [[|] [|]], syslog; repeat split.
Qed.

(** ** What goes to the console and what goes to the log *)

Section Lines.

Variable w : World.
Variable timeout : Z.

Lemma dns_try_lines (u : string) :
  syslog_lines (trace (dns_try w u timeout)) = [].
Proof.
  unfold dns_try, call, bind; simpl.
  destruct (Resolver_init w); simpl; [reflexivity|].
  destruct (urlparse_hostname w u) as [dom|]; simpl; [|reflexivity].
  destruct (resolver_query w dom timeout); reflexivity.
Qed.

Lemma web_try_lines (u : string) :
  syslog_lines (trace (web_try w u timeout)) = [].
Proof.
  destruct (requests_get w u timeout) as [r|e] eqn:Hget.
  - destruct (is_error_status (status_code r)) eqn:Hs.
    + destruct (web_try_error_status _ _ _ _ Hget Hs) as [msg ->]. reflexivity.
    + rewrite web_try_responds; [reflexivity|].
      unfold responds. rewrite Hget, Hs. reflexivity.
  - rewrite (web_try_raise _ _ _ _ Hget). reflexivity.
Qed.

Lemma web_try_printed_error (u : string) (e : exn) :
  web_error w timeout u = Some e ->
  printed_lines (trace (web_try w u timeout)) = [].
Proof.
  unfold web_error. intros H.
  destruct (requests_get w u timeout) as [r|e'] eqn:Hget.
  - destruct (is_error_status (status_code r)) eqn:Hs.
    + destruct (web_try_error_status _ _ _ _ Hget Hs) as [msg ->]. reflexivity.
    + rewrite web_try_responds in H; [discriminate|].
      unfold responds. rewrite Hget, Hs. reflexivity.
  - rewrite (web_try_raise _ _ _ _ Hget). reflexivity.
Qed.

Lemma passed_lines (pre : list string) :
  forallb (responds w timeout) pre = true ->
  printed_lines (flat_map (fun x => trace (web_try w x timeout)) pre)
  = map (fun x => "Web check for url " ++ x ++ " ... passed!") pre
  /\ syslog_lines (flat_map (fun x => trace (web_try w x timeout)) pre) = [].
Proof.
  induction pre as [|x pre IH]; intros H; [split; reflexivity|].
  cbn [forallb] in H. apply andb_true_iff in H. destruct H as [Hx Hpre].
  destruct (IH Hpre) as [IHp IHs].
  cbn [flat_map map]. rewrite printed_lines_app, syslog_lines_app, IHp, IHs.
  rewrite (web_try_responds _ _ _ Hx). split; reflexivity.
Qed.

Lemma syslog_lines_dns_check (syslog : bool) (urls : list string) :
  syslog_lines (trace (dns_check w urls timeout syslog)) =
  if syslog
  then [match find (fun u => negb (resolves w timeout u)) urls with
        | Some u => "DNS check for url " ++ u ++ " ... failed"
        | None => "All dns checks passed successfully!"
        end]
  else [].
Proof.
  induction urls as [|u urls IH].
  - rewrite dns_check_nil. destruct syslog; reflexivity.
  - cbn [find]. destruct (resolves w timeout u) eqn:Hu; cbn [negb].
    + rewrite (dns_check_cons_ok _ _ _ _ _ Hu). cbn [trace].
      rewrite syslog_lines_app, dns_try_lines. exact IH.
    + rewrite (dns_check_cons_fail _ _ _ _ _ Hu). cbn [trace].
      rewrite syslog_lines_app, dns_try_lines, dns_except_run. cbn [trace app].
      destruct syslog; [|reflexivity].
      unfold syslog_lines. cbn [flat_map]. rewrite strip_prefix_app.
      reflexivity.
Qed.

Lemma syslog_lines_web_check (syslog : bool) (urls : list string) :
  syslog_lines (trace (web_check w urls timeout syslog)) =
  if syslog
  then match find (fun u => negb (responds w timeout u)) urls with
       | None => ["All web checks passed successfully!"]
       | Some u =>
           match web_error w timeout u with
           | Some e =>
               if isinstance e RequestException
               then ["Web check for url " ++ u ++ " ... failed due to " ++ exn_name e]
               else []
           | None => []
           end
       end
  else [].
Proof.
  induction urls as [|u urls IH].
  - rewrite web_check_nil. destruct syslog; reflexivity.
  - cbn [find]. destruct (web_error w timeout u) as [e|] eqn:Hu.
    + assert (Hn : responds w timeout u = false).
      { destruct (responds w timeout u) eqn:Hr; [|reflexivity].
        apply web_error_responds in Hr. congruence. }
      rewrite Hn. cbn [negb]. rewrite Hu.
      destruct (isinstance e RequestException) eqn:He.
      * rewrite (web_check_cons_fail _ _ _ _ _ _ Hu He). cbn [trace].
        rewrite syslog_lines_app, web_try_lines, web_except_run. cbn [trace app].
        destruct syslog; [|reflexivity].
        unfold syslog_lines. cbn [flat_map]. rewrite strip_prefix_app.
        reflexivity.
      * rewrite (web_check_cons_crash _ _ _ _ _ _ Hu He). cbn [trace].
        rewrite web_try_lines. destruct syslog; reflexivity.
    + rewrite (web_check_cons_ok _ _ _ _ _ Hu). cbn [trace].
      apply web_error_responds in Hu. rewrite Hu. cbn [negb].
      rewrite syslog_lines_app, web_try_lines. exact IH.
Qed.

End Lines.

(** C5, as the code has it.  When the first URL that does not pass fails
    with the exception [e], the console line of the failure carries the
    class name of [e] and its text, and, with logging enabled, the one line
    sent to the device log carries the class name of [e] and not its
    text. *)
Theorem web_failure_lines
    (w : World) (timeout : Z) (pre : list string) (u : string)
    (post : list string) (e : exn) :
  forallb (responds w timeout) pre = true ->
  web_error w timeout u = Some e ->
  isinstance e RequestException = true ->
  let r := web_check w (pre ++ u :: post) timeout true in
  printed_lines (trace r) =
    (map (fun x => ("Web check for url " ++ x ++ " ... passed!")%string) pre
       ++ [("Web check for url " ++ u ++ " ... failed: "
              ++ exn_name e ++ ": " ++ exn_str e)%string])%list
  /\ syslog_lines (trace r) =
     [("Web check for url " ++ u ++ " ... failed due to " ++ exn_name e)%string]%list.
Proof.
  intros Hpre Hu He r. unfold r.
  rewrite (web_check_app _ _ _ _ _ Hpre).
  rewrite (web_check_cons_fail _ _ _ _ _ _ Hu He). cbn [trace].
  destruct (passed_lines w timeout pre Hpre) as [Hp Hs].
  rewrite !printed_lines_app, !syslog_lines_app, Hp, Hs.
  rewrite (web_try_printed_error _ _ _ _ Hu), web_try_lines.
  rewrite web_except_run. cbn [trace app].
  unfold syslog_lines. cbn [printed_lines flat_map app].
  rewrite strip_prefix_app. split; reflexivity.
Qed.

Lemma web_failure_lines_witness :
  let r := web_check (lab ship_gi2 None)
             ["https://ok.example"; "https://down.example"; "https://never.example"]%list
             1 true in
  printed_lines (trace r) =
    ["Web check for url https://ok.example ... passed!";
     "Web check for url https://down.example ... failed: ConnectTimeout: Connection to down.example timed out. (connect timeout=1)"]%list
  /\ syslog_lines (trace r) =
     ["Web check for url https://down.example ... failed due to ConnectTimeout"]%list.
Proof.
  exact (web_failure_lines (lab ship_gi2 None) 1 ["https://ok.example"]%list
           "https://down.example" ["https://never.example"]%list ConnectTimeout
           eq_refl eq_refl eq_refl).
Defined.

(** C5 as stated fails: the line sent to the log names the class of the
    exception. *)
Lemma syslog_line_names_exception_class :
  let r := web_check (lab ship_gi2 None) ["https://down.example"]%list 1 true in
  let line := "Web check for url https://down.example ... failed due to ConnectTimeout" in
  requests_get (lab ship_gi2 None) "https://down.example" 1 = Raise ConnectTimeout
  /\ syslog_lines (trace r) = [line]%list
  /\ exn_name ConnectTimeout = "ConnectTimeout"
  /\ index 0 (exn_name ConnectTimeout) line = Some 57%nat.
Proof. repeat split. Qed.

(** C6, as the code has it.  With logging disabled a check sends nothing
    to the device log, and neither does [main].  With logging enabled a
    check that returns sends exactly one line: the aggregate line when every
    URL passed, and otherwise the failure line of the first URL that did not
    (for [web_check] in its log form); a [web_check] left by an exception
    sends none.  The [passed!] lines of the single URLs are printed and
    never sent. *)
Theorem syslog_lines_of_checks (w : World) (timeout : Z) (urls : list string) :
  syslog_lines (trace (dns_check w urls timeout false)) = []
  /\ syslog_lines (trace (web_check w urls timeout false)) = []
  /\ (forall g chromecast,
        syslog_lines (trace (main w g (mkArgs chromecast false))) = [])
  /\ syslog_lines (trace (dns_check w urls timeout true)) =
     [match find (fun u => negb (resolves w timeout u)) urls with
      | Some u => ("DNS check for url " ++ u ++ " ... failed")%string
      | None => "All dns checks passed successfully!"
      end]%list
  /\ syslog_lines (trace (web_check w urls timeout true)) =
     match find (fun u => negb (responds w timeout u)) urls with
     | None => ["All web checks passed successfully!"]%list
     | Some u =>
         match web_error w timeout u with
         | Some e =>
             if isinstance e RequestException
             then [("Web check for url " ++ u
                      ++ " ... failed due to " ++ exn_name e)%string]%list
             else []
         | None => []
         end
     end.
Proof.
  split; [apply (syslog_lines_dns_check w timeout false)|].
  split; [apply (syslog_lines_web_check w timeout false)|].
  split; [|split; [apply (syslog_lines_dns_check w timeout true)
                  |apply (syslog_lines_web_check w timeout true)]].
  intros g chromecast. rewrite main_run. cbn [trace arg_syslog arg_chromecast].
  assert (Hc : syslog_lines (trace (checks w g false)) = []).
  { pose proof (dns_check_result w 1 false (WEB_HOSTS g)) as Hd.
    destruct (forallb (resolves w 1) (WEB_HOSTS g)).
    - rewrite (checks_dns_passed w g false Hd). cbn [trace].
      rewrite syslog_lines_app, (syslog_lines_dns_check w 1 false),
        (syslog_lines_web_check w 1 false). reflexivity.
    - rewrite (checks_dns_failed w g false Hd). cbn [trace].
      apply (syslog_lines_dns_check w 1 false). }
  rewrite syslog_lines_app, Hc.
  destruct (batch_failed (checks w g false)); [|reflexivity].
  destruct (alert_lines w g) as [_ [Ha _]].
  destruct chromecast; cbn [app]; [|reflexivity].
  change (Print ?l :: ?x) with ([Print l] ++ x)%list.
  rewrite syslog_lines_app, Ha. reflexivity.
Qed.

(** C6 as stated fails: with logging enabled the [passed!] line of a URL is
    printed and not sent. *)
Lemma passed_line_not_mirrored :
  let r := dns_check (lab ship_gi2 None) ["https://ok.example"]%list 1 true in
  printed_lines (trace r) =
    ["DNS check for url https://ok.example ... passed!";
     "All dns checks passed successfully!"]%list
  /\ syslog_lines (trace r) = ["All dns checks passed successfully!"]%list.
Proof. repeat split. Qed.

(** ** The scenario of the specification *)

(** Two hosts, the first resolving and answering 200, the second not
    resolving; both flags set.  The DNS check fails at the second host, no
    GET is issued, the failure is reported and logged, and the alert runs
    with one start and one stop of the server. *)
Example scenario_bad_example :
  let g := mkGlobals "192.168.101.103" "Future_Gladiator.mp3"
             ["https://ok.example"; "https://bad.example"]%list in
  main (lab ship_gi2 None) g (mkArgs true true) =
  mkRun [NewResolver; DnsQuery (Some "ok.example") 1;
         Print "DNS check for url https://ok.example ... passed!";
         NewResolver; DnsQuery (Some "bad.example") 1;
         Print "DNS check for url https://bad.example ... failed";
         Cli "send log facility PYTHON severity 6 mnemonics CONF_CHECK DNS check for url https://bad.example ... failed";
         Print "Network Error!";
         Cli "send log facility PYTHON severity 6 mnemonics CONF_CHECK Network Error!";
         ThreadStart; Print "starting server on port 45114";
         Cli "show ip int bri gi2"; CastConnect "192.168.101.103";
         PlayMedia "http://192.168.101.1:45114/Future_Gladiator.mp3" "audio/mp3";
         ServerShutdown; Print "stopping server on port 45114"]%list
        (Return tt).
Proof. reflexivity. Qed.

(** The script as shipped, every probe answered: nothing but the lines of
    the checks. *)
Example scenario_all_passed :
  main (lab ship_gi2 None) conf_check (mkArgs true false) =
  mkRun [NewResolver; DnsQuery (Some "www.cisco.com") 1;
         Print "DNS check for url https://www.cisco.com ... passed!";
         NewResolver; DnsQuery (Some "www.google.com") 1;
         Print "DNS check for url https://www.google.com ... passed!";
         Print "All dns checks passed successfully!";
         HttpGet "https://www.cisco.com" 1;
         Print "Web check for url https://www.cisco.com ... passed!";
         HttpGet "https://www.google.com" 1;
         Print "Web check for url https://www.google.com ... passed!";
         Print "All web checks passed successfully!"]%list
        (Return tt).
Proof. reflexivity. Qed.

(** * Further properties of the script *)

(** ** The address [audio_play] takes *)

Lemma span_digits_rest (s d r : string) :
  span_digits s = (d, r) -> no_leading_digit r.
Proof.
  revert d r. induction s as [|c s IH]; simpl; intros d r H.
  - injection H as <- <-. exact I.
  - destruct (is_digit c) eqn:Hc.
    + destruct (span_digits s) as [d' r'] eqn:Hs. injection H as <- <-.
      exact (IH d' r' eq_refl).
    + injection H as <- <-. exact Hc.
Qed.

Lemma match_digits_rest (s d r : string) :
  match_digits s = Some (d, r) -> no_leading_digit r.
Proof.
  unfold match_digits. destruct (span_digits s) as [d' r'] eqn:Hs.
  destruct d'; [discriminate|]. intros [= <- <-].
  exact (span_digits_rest _ _ _ Hs).
Qed.

Lemma match_quad_rest (s m r : string) :
  match_quad s = Some (m, r) -> no_leading_digit r.
Proof.
  unfold match_quad.
  destruct (match_digits s) as [[a r1]|]; [|discriminate].
  destruct (match_dot_digits r1) as [[x2 r2]|]; [|discriminate].
  destruct (match_dot_digits r2) as [[x3 r3]|]; [|discriminate].
  destruct (match_dot_digits r3) as [[x4 r4]|] eqn:H4; [|discriminate].
  intros [= <- <-]. unfold match_dot_digits in H4.
  destruct r3 as [|c r3]; [discriminate|].
  destruct c as [[] [] [] [] [] [] [] []]; try discriminate H4.
  destruct (match_digits r3) as [[d r']|] eqn:Hd; [|discriminate].
  injection H4 as <- <-. exact (match_digits_rest _ _ _ Hd).
Qed.

(** The first match of [findall]: a dotted quad of the string, not cut
    short, with no dotted quad beginning before it. *)
Lemma findall_quad_first (s h : string) (others : list string) :
  findall_quad s = (h :: others)%list ->
  exists pre post,
    s = pre ++ h ++ post
    /\ dotted_quad h
    /\ no_leading_digit post
    /\ forall pre1 pre2,
         pre = pre1 ++ pre2 -> pre2 <> EmptyString ->
         ~ begins_with_dotted_quad (pre2 ++ h ++ post).
Proof.
  unfold findall_quad. induction s as [|c s IH]; [discriminate|].
  cbn [findall_from].
  destruct (match_quad (String c s)) as [[m r]|] eqn:Hm.
  - intros [= <- _]. destruct (match_quad_sound _ _ _ Hm) as [Hq Hs].
    exists EmptyString, r. split; [exact Hs|]. split; [exact Hq|].
    split; [exact (match_quad_rest _ _ _ Hm)|].
    intros pre1 pre2 E Hne. destruct pre1, pre2; try discriminate E.
    congruence.
  - intros H. destruct (IH H) as [pre [post [-> [Hq [Hr Hleft]]]]].
    exists (String c pre), post. split; [reflexivity|]. split; [exact Hq|].
    split; [exact Hr|].
    intros pre1 pre2 E Hne [q [r [Hq' Hs]]].
    destruct pre1 as [|c1 pre1].
    + cbn [append] in E. subst pre2. cbn [append] in Hs.
      destruct (match_quad_complete q r Hq') as [m' [r' Hm']].
      rewrite <- Hs in Hm'. congruence.
    + cbn [append] in E. injection E as _ E.
      apply (Hleft pre1 pre2 E Hne). exists q, r. split; assumption.
Qed.

Lemma findall_quad_found (s : string) :
  contains_dotted_quad s -> exists h others, findall_quad s = (h :: others)%list.
Proof.
  intros H. destruct (findall_quad s) as [|h others] eqn:E; [|eauto].
  apply findall_quad_nil in E. contradiction.
Qed.

Lemma findall_quad_contains (s h : string) (others : list string) :
  findall_quad s = (h :: others)%list -> contains_dotted_quad s.
Proof.
  intros H. destruct (findall_quad_first _ _ _ H) as [pre [post [E [Hq _]]]].
  exists pre, h, post. split; assumption.
Qed.

(** X1. When the output of [show ip int bri gi2] contains a dotted quad,
    [audio_play] takes the leftmost one, whole: no dotted quad begins
    before it and no digit follows it.  It connects to [CASTIPADDR] and, if
    the connection is made, tells the speaker to play
    [http://<that address>:45114/<AUDIOFILE>] as [audio/mp3]; if the
    connection raises, no play command is issued. *)
Theorem audio_play_leftmost_address (w : World) (g : Globals) :
  contains_dotted_quad (cli_output w "show ip int bri gi2") ->
  exists pre host post,
    cli_output w "show ip int bri gi2" = pre ++ host ++ post
    /\ dotted_quad host
    /\ no_leading_digit post
    /\ (forall pre1 pre2,
          pre = pre1 ++ pre2 -> pre2 <> EmptyString ->
          ~ begins_with_dotted_quad (pre2 ++ host ++ post))
    /\ audio_play w g =
       mkRun (Cli "show ip int bri gi2" :: CastConnect (CASTIPADDR g)
                :: match Chromecast_init w (CASTIPADDR g) with
                   | None => [PlayMedia (media_url g host) "audio/mp3"]
                   | Some _ => []
                   end)
             match Chromecast_init w (CASTIPADDR g) with
             | Some e => Raise e
             | None =>
                 match play_media w (media_url g host) "audio/mp3" with
                 | Some e => Raise e
                 | None => Return tt
                 end
             end.
Proof.
  intros H. destruct (findall_quad_found _ H) as [host [others Hf]].
  destruct (findall_quad_first _ _ _ Hf) as [pre [post [E [Hq [Hr Hleft]]]]].
  exists pre, host, post. repeat (split; [assumption|]).
  exact (audio_play_match w g host others Hf).
Qed.

Lemma audio_play_leftmost_address_witness :
  exists pre host post,
    ship_gi2 = pre ++ host ++ post
    /\ dotted_quad host
    /\ no_leading_digit post
    /\ (forall pre1 pre2,
          pre = pre1 ++ pre2 -> pre2 <> EmptyString ->
          ~ begins_with_dotted_quad (pre2 ++ host ++ post))
    /\ audio_play (lab ship_gi2 None) conf_check =
       mkRun [Cli "show ip int bri gi2"; CastConnect "192.168.101.103";
              PlayMedia (media_url conf_check host) "audio/mp3"]
             (Return tt).
Proof.
  apply (audio_play_leftmost_address (lab ship_gi2 None) conf_check).
  apply (findall_quad_contains _ "192.168.101.1" []). vm_compute. reflexivity.
Defined.

(** ** The kinds of events of each part *)

Lemma strip_prefix_sound (p s m : string) :
  strip_prefix p s = Some m -> s = p ++ m.
Proof.
  revert s. induction p as [|a p IH]; intros s; cbn [strip_prefix].
  - intros [= ->]. reflexivity.
  - destruct s as [|b s]; [discriminate|].
    destruct (Ascii.eqb a b) eqn:E; [|discriminate].
    apply Ascii.eqb_eq in E. subst b. intros H.
    cbn [append]. now rewrite (IH _ H).
Qed.

Section EventKinds.

Variable w : World.
Variable P : event -> Prop.

Hypothesis P_print : forall l, P (Print l).

Lemma Forall_dns_try (timeout : Z) (u : string) :
  P NewResolver -> (forall d, P (DnsQuery d timeout)) ->
  Forall P (trace (dns_try w u timeout)).
Proof.
  intros Hn Hq. unfold dns_try, call, bind; simpl.
  destruct (Resolver_init w); simpl; [repeat constructor; auto|].
  destruct (urlparse_hostname w u) as [dom|]; simpl; [|repeat constructor; auto].
  destruct (resolver_query w dom timeout); simpl; repeat constructor; auto.
Qed.

Lemma Forall_dns_check (timeout : Z) (syslog : bool) (urls : list string) :
  P NewResolver -> (forall d, P (DnsQuery d timeout)) ->
  (syslog = true -> forall m, P (Cli (syslog_prefix ++ m))) ->
  Forall P (trace (dns_check w urls timeout syslog)).
Proof.
  intros Hn Hq Hc. induction urls as [|u urls IH].
  - rewrite dns_check_nil. cbn [trace].
    destruct syslog; repeat constructor; auto.
  - destruct (resolves w timeout u) eqn:Hu.
    + rewrite (dns_check_cons_ok _ _ _ _ _ Hu). cbn [trace].
      apply Forall_app. split; [apply Forall_dns_try; assumption|exact IH].
    + rewrite (dns_check_cons_fail _ _ _ _ _ Hu). cbn [trace].
      apply Forall_app. split; [apply Forall_dns_try; assumption|].
      rewrite dns_except_run. cbn [trace].
      destruct syslog; repeat constructor; auto.
Qed.

Lemma Forall_web_try (timeout : Z) (u : string) :
  P (HttpGet u timeout) -> Forall P (trace (web_try w u timeout)).
Proof.
  intros Hg. destruct (requests_get w u timeout) as [r|e] eqn:Hget.
  - destruct (is_error_status (status_code r)) eqn:Hs.
    + destruct (web_try_error_status _ _ _ _ Hget Hs) as [msg ->].
      repeat constructor; auto.
    + rewrite web_try_responds; [repeat constructor; auto|].
      unfold responds. rewrite Hget, Hs. reflexivity.
  - rewrite (web_try_raise _ _ _ _ Hget). repeat constructor; auto.
Qed.

Lemma Forall_web_check (timeout : Z) (syslog : bool) (urls : list string) :
  (forall u, P (HttpGet u timeout)) ->
  (syslog = true -> forall m, P (Cli (syslog_prefix ++ m))) ->
  Forall P (trace (web_check w urls timeout syslog)).
Proof.
  intros Hg Hc. induction urls as [|u urls IH].
  - rewrite web_check_nil. cbn [trace].
    destruct syslog; repeat constructor; auto.
  - destruct (web_error w timeout u) as [e|] eqn:Hu.
    + destruct (isinstance e RequestException) eqn:He.
      * rewrite (web_check_cons_fail _ _ _ _ _ _ Hu He). cbn [trace].
        apply Forall_app. split; [apply Forall_web_try; auto|].
        rewrite web_except_run. cbn [trace].
        destruct syslog; repeat constructor; auto.
      * rewrite (web_check_cons_crash _ _ _ _ _ _ Hu He). cbn [trace].
        apply Forall_web_try; auto.
    + rewrite (web_check_cons_ok _ _ _ _ _ Hu). cbn [trace].
      apply Forall_app. split; [apply Forall_web_try; auto|exact IH].
Qed.

Lemma Forall_checks (g : Globals) (syslog : bool) :
  P NewResolver -> (forall d, P (DnsQuery d 1)) -> (forall u, P (HttpGet u 1)) ->
  (syslog = true -> forall m, P (Cli (syslog_prefix ++ m))) ->
  Forall P (trace (checks w g syslog)).
Proof.
  intros Hn Hq Hg Hc.
  pose proof (dns_check_result w 1 syslog (WEB_HOSTS g)) as Hd.
  destruct (forallb (resolves w 1) (WEB_HOSTS g)).
  - rewrite (checks_dns_passed w g syslog Hd). cbn [trace].
    apply Forall_app. split;
      [apply Forall_dns_check|apply Forall_web_check]; assumption.
  - rewrite (checks_dns_failed w g syslog Hd). cbn [trace].
    apply Forall_dns_check; assumption.
Qed.

Lemma Forall_alert (g : Globals) :
  P ThreadStart -> P ServerShutdown -> P (Cli "show ip int bri gi2") ->
  (forall h, P (CastConnect h)) -> (forall u m, P (PlayMedia u m)) ->
  Forall P (trace (alert w g)).
Proof.
  intros Hs Hd Hc Hk Hp. rewrite alert_run. cbn [trace].
  constructor; [exact Hs|]. constructor; [apply P_print|].
  apply Forall_app. split.
  - destruct (findall_quad (cli_output w "show ip int bri gi2"))
      as [|host others] eqn:H.
    + rewrite (audio_play_no_match w g H). repeat constructor; auto.
    + rewrite (audio_play_match w g _ _ H). cbn [trace].
      destruct (Chromecast_init w (CASTIPADDR g)); repeat constructor; auto.
  - destruct (result (audio_play w g)); repeat constructor; auto.
Qed.

End EventKinds.

(** X2. Without [--chromecast], whatever the checks give, [main] only
    probes, prints and sends [send log] commands: it never starts or stops
    the server, never contacts the speaker and never asks the device for
    its address.  Without [--syslog] as well, it sends no command to the
    device at all. *)
Theorem main_without_chromecast (w : World) (g : Globals) (syslog : bool) :
  Forall check_or_report (trace (main w g (mkArgs false syslog)))
  /\ Forall (fun ev => is_cli ev = false) (trace (main w g (mkArgs false false))).
Proof.
  split.
  - rewrite main_run. cbn [trace arg_syslog arg_chromecast].
    apply Forall_app. split.
    + apply Forall_checks; cbn; eauto.
    + destruct (batch_failed (checks w g syslog)); [|constructor].
      destruct syslog; repeat constructor. cbn. eauto.
  - rewrite main_run. cbn [trace arg_syslog arg_chromecast].
    apply Forall_app. split.
    + apply Forall_checks; try reflexivity; discriminate.
    + destruct (batch_failed (checks w g false)); repeat constructor.
Qed.

(** X4. Every probe [main] makes is given the timeout 1, the default that
    [checks] leaves in place; and a check called with another timeout hands
    that one to each of its probes. *)
Theorem probes_use_the_timeout
    (w : World) (g : Globals) (args : Args)
    (urls : list string) (timeout : Z) (syslog : bool) :
  Forall (probe_timeout timeout) (trace (dns_check w urls timeout syslog))
  /\ Forall (probe_timeout timeout) (trace (web_check w urls timeout syslog))
  /\ Forall (probe_timeout 1) (trace (main w g args)).
Proof.
  split; [apply Forall_dns_check; cbn; auto|].
  split; [apply Forall_web_check; cbn; auto|].
  rewrite main_run. cbn [trace]. apply Forall_app. split.
  - apply Forall_checks; cbn; auto.
  - destruct (batch_failed (checks w g (arg_syslog args))); [|constructor].
    constructor; [exact I|]. apply Forall_app. split.
    + destruct (arg_syslog args); repeat constructor.
    + destruct (arg_chromecast args); [|constructor].
      apply Forall_alert; cbn; auto.
Qed.

(** ** The aggregate lines *)

Lemma dns_try_printed (w : World) (timeout : Z) (u : string) :
  printed_lines (trace (dns_try w u timeout)) =
  if resolves w timeout u
  then ["DNS check for url " ++ u ++ " ... passed!"]
  else [].
Proof.
  unfold resolves, dns_try, call, bind; simpl.
  destruct (Resolver_init w); simpl; [reflexivity|].
  destruct (urlparse_hostname w u) as [dom|]; simpl; [|reflexivity].
  destruct (resolver_query w dom timeout); reflexivity.
Qed.

Lemma web_try_printed (w : World) (timeout : Z) (u : string) :
  printed_lines (trace (web_try w u timeout)) =
  if responds w timeout u
  then ["Web check for url " ++ u ++ " ... passed!"]
  else [].
Proof.
  destruct (responds w timeout u) eqn:Hr.
  - rewrite (web_try_responds _ _ _ Hr). reflexivity.
  - destruct (web_error w timeout u) as [e|] eqn:Hu.
    + exact (web_try_printed_error _ _ _ _ Hu).
    + apply web_error_responds in Hu. congruence.
Qed.

Lemma count_dns_try (w : World) (timeout : Z) (u : string) :
  count_occ string_dec (printed_lines (trace (dns_try w u timeout)))
    dns_all_passed = 0%nat.
Proof.
  rewrite dns_try_printed. destruct (resolves w timeout u); [|reflexivity].
  apply count_occ_not_In. intros [E|[]]. discriminate E.
Qed.

Lemma count_web_try (w : World) (timeout : Z) (u : string) :
  count_occ string_dec (printed_lines (trace (web_try w u timeout)))
    web_all_passed = 0%nat.
Proof.
  rewrite web_try_printed. destruct (responds w timeout u); [|reflexivity].
  apply count_occ_not_In. intros [E|[]]. discriminate E.
Qed.

Lemma count_one_line (l a : string) :
  l <> a -> count_occ string_dec [l] a = 0%nat.
Proof. intros H. apply count_occ_not_In. intros [E|[]]. exact (H E). Qed.

(** X5. Each check prints its aggregate line exactly once when it passes
    and not at all otherwise: [dns_check] when every URL resolves,
    [web_check] when every URL gets a response that is not 4xx or 5xx. *)
Theorem aggregate_line_once
    (w : World) (timeout : Z) (syslog : bool) (urls : list string) :
  count_occ string_dec
    (printed_lines (trace (dns_check w urls timeout syslog))) dns_all_passed
  = (if forallb (resolves w timeout) urls then 1 else 0)%nat
  /\ count_occ string_dec
       (printed_lines (trace (web_check w urls timeout syslog))) web_all_passed
     = (if forallb (responds w timeout) urls then 1 else 0)%nat.
Proof.
  split.
  - induction urls as [|u urls IH].
    + rewrite dns_check_nil. destruct syslog; reflexivity.
    + cbn [forallb]. destruct (resolves w timeout u) eqn:Hu; cbn [andb].
      * rewrite (dns_check_cons_ok _ _ _ _ _ Hu). cbn [trace].
        rewrite printed_lines_app, count_occ_app, IH, count_dns_try.
        reflexivity.
      * rewrite (dns_check_cons_fail _ _ _ _ _ Hu). cbn [trace].
        rewrite printed_lines_app, count_occ_app, count_dns_try.
        rewrite dns_except_run. cbn [trace].
        destruct syslog; cbn [printed_lines flat_map app];
          apply count_one_line; discriminate.
  - induction urls as [|u urls IH].
    + rewrite web_check_nil. destruct syslog; reflexivity.
    + cbn [forallb]. destruct (web_error w timeout u) as [e|] eqn:Hu.
      * assert (Hn : responds w timeout u = false).
        { destruct (responds w timeout u) eqn:Hr; [|reflexivity].
          apply web_error_responds in Hr. congruence. }
        rewrite Hn. cbn [andb].
        destruct (isinstance e RequestException) eqn:He.
        -- rewrite (web_check_cons_fail _ _ _ _ _ _ Hu He). cbn [trace].
           rewrite printed_lines_app, count_occ_app, count_web_try.
           rewrite web_except_run. cbn [trace].
           destruct syslog; cbn [printed_lines flat_map app];
             apply count_one_line; discriminate.
        -- rewrite (web_check_cons_crash _ _ _ _ _ _ Hu He). cbn [trace].
           apply count_web_try.
      * rewrite (web_check_cons_ok _ _ _ _ _ Hu). cbn [trace].
        apply web_error_responds in Hu. rewrite Hu. cbn [andb].
        rewrite printed_lines_app, count_occ_app, IH, count_web_try.
        reflexivity.
Qed.

(** ** What [dns_check] asks the resolver *)

Lemma dns_queries_app (t1 t2 : list event) :
  dns_queries (t1 ++ t2) = (dns_queries t1 ++ dns_queries t2)%list.
Proof. apply flat_map_app. Qed.

Lemma dns_queries_try (w : World) (timeout : Z) (u : string) :
  (resolves w timeout u = true ->
   dns_queries (trace (dns_try w u timeout)) = [hostname w u])
  /\ (dns_queries (trace (dns_try w u timeout)) = [hostname w u]
      \/ dns_queries (trace (dns_try w u timeout)) = []).
Proof.
  unfold resolves, hostname, dns_try, call, bind; simpl.
  destruct (Resolver_init w); simpl; [split; [discriminate|auto]|].
  destruct (urlparse_hostname w u) as [dom|]; simpl; [|split; [discriminate|auto]].
  destruct (resolver_query w dom timeout); simpl; split; auto.
Qed.

(** X6. [dns_check] queries hostnames, not URLs: the domains it hands to
    the resolver are the hostnames [urlparse] gives for the URLs, in list
    order, for an initial part of the list; when every URL resolves, for the
    whole list, once each. *)
Theorem dns_check_queries_hostnames
    (w : World) (timeout : Z) (syslog : bool) (urls : list string) :
  (exists n,
     dns_queries (trace (dns_check w urls timeout syslog))
     = map (hostname w) (firstn n urls))
  /\ (forallb (resolves w timeout) urls = true ->
      dns_queries (trace (dns_check w urls timeout syslog))
      = map (hostname w) urls).
Proof.
  assert (Hnil : forall t, t = trace (dns_check w [] timeout syslog) ->
                           dns_queries t = []).
  { intros t ->. rewrite dns_check_nil. destruct syslog; reflexivity. }
  split.
  - induction urls as [|u urls [n IH]].
    + exists 0%nat. apply Hnil. reflexivity.
    + destruct (dns_queries_try w timeout u) as [Hok Hany].
      destruct (resolves w timeout u) eqn:Hu.
      * rewrite (dns_check_cons_ok _ _ _ _ _ Hu). cbn [trace].
        exists (S n). rewrite dns_queries_app, (Hok eq_refl), IH. reflexivity.
      * rewrite (dns_check_cons_fail _ _ _ _ _ Hu). cbn [trace].
        rewrite dns_queries_app, dns_except_run. cbn [trace].
        assert (E : dns_queries
                      (Print ("DNS check for url " ++ u ++ " ... failed")
                         :: (if syslog
                             then [Cli (syslog_prefix ++ "DNS check for url "
                                          ++ u ++ " ... failed")]
                             else [])) = [])
          by (destruct syslog; reflexivity).
        rewrite E, app_nil_r.
        destruct Hany as [-> | ->]; [exists 1%nat|exists 0%nat]; reflexivity.
  - induction urls as [|u urls IH]; intros H.
    + apply Hnil. reflexivity.
    + cbn [forallb] in H. apply andb_true_iff in H. destruct H as [Hu Hrest].
      rewrite (dns_check_cons_ok _ _ _ _ _ Hu). cbn [trace].
      rewrite dns_queries_app, (proj1 (dns_queries_try w timeout u) Hu),
        (IH Hrest).
      reflexivity.
Qed.

Lemma dns_check_queries_hostnames_witness :
  dns_queries (trace (dns_check (lab ship_gi2 None) (WEB_HOSTS conf_check) 1 false))
  = [Some "www.cisco.com"; Some "www.google.com"]%list.
Proof.
  exact (proj2 (dns_check_queries_hostnames (lab ship_gi2 None) 1 false
                  (WEB_HOSTS conf_check)) eq_refl).
Defined.

(** ** The probes of a whole run *)

Lemma flat_map_nil {A B} (f : A -> list B) (l : list A) :
  Forall (fun x => f x = []) l -> flat_map f l = [].
Proof.
  induction 1 as [|x l Hx _ IH]; [reflexivity|].
  cbn [flat_map]. now rewrite Hx, IH.
Qed.

(** X8. The probes of [main] are those of the two checks and no others:
    its DNS queries are the queries of [dns_check] on [WEB_HOSTS], and its
    GETs are the GETs of [web_check] on [WEB_HOSTS] when every host
    resolves, and none at all when one does not.  The reports and the alert
    probe nothing. *)
Theorem main_probes (w : World) (g : Globals) (args : Args) :
  dns_queries (trace (main w g args))
  = dns_queries (trace (dns_check w (WEB_HOSTS g) 1 (arg_syslog args)))
  /\ http_gets (trace (main w g args))
     = if forallb (resolves w 1) (WEB_HOSTS g)
       then http_gets (trace (web_check w (WEB_HOSTS g) 1 (arg_syslog args)))
       else [].
Proof.
  assert (Hq : forall t, Forall (fun ev => match ev with
                                           | DnsQuery _ _ => False
                                           | _ => True
                                           end) t -> dns_queries t = []).
  { intros t H. apply flat_map_nil. revert H. apply Forall_impl.
    intros [] Hev; reflexivity || destruct Hev. }
  assert (Hg : forall t, Forall (fun ev => match ev with
                                           | HttpGet _ _ => False
                                           | _ => True
                                           end) t -> http_gets t = []).
  { intros t H. apply flat_map_nil. revert H. apply Forall_impl.
    intros [] Hev; reflexivity || destruct Hev. }
  rewrite main_run. cbn [trace].
  rewrite dns_queries_app, http_gets_app.
  set (report := if batch_failed (checks w g (arg_syslog args))
                 then _ else _).
  assert (Hrq : dns_queries report = [] /\ http_gets report = []).
  { unfold report. destruct (batch_failed _); [|split; reflexivity].
    split; [apply Hq|apply Hg]; (constructor; [exact I|]);
      (apply Forall_app; split;
         [destruct (arg_syslog args); repeat constructor
         |destruct (arg_chromecast args);
            [apply Forall_alert; intros; exact I|constructor]]). }
  destruct Hrq as [-> ->]. rewrite !app_nil_r.
  pose proof (dns_check_result w 1 (arg_syslog args) (WEB_HOSTS g)) as Hd.
  destruct (forallb (resolves w 1) (WEB_HOSTS g)).
  - rewrite (checks_dns_passed w g _ Hd). cbn [trace].
    rewrite dns_queries_app, http_gets_app, http_gets_dns_check.
    rewrite (Hq (trace (web_check w (WEB_HOSTS g) 1 (arg_syslog args)))).
    + rewrite app_nil_r. split; reflexivity.
    + apply Forall_web_check; intros; exact I.
  - rewrite (checks_dns_failed w g _ Hd). cbn [trace].
    split; [reflexivity|apply http_gets_dns_check].
Qed.

(** ** The console *)

(** X9. What a check prints: a [passed!] line for each URL of the longest
    initial part of the list that passes, in order, and then one last line:
    the aggregate line when that is the whole list, otherwise the failure
    line of the next URL.  For [web_check] that failure line carries the
    class name and the text of the exception; when the exception is not a
    [RequestException], [web_check] prints no last line. *)
Theorem console_of_checks
    (w : World) (timeout : Z) (syslog : bool) (urls : list string) :
  printed_lines (trace (dns_check w urls timeout syslog)) =
    (map (fun u => ("DNS check for url " ++ u ++ " ... passed!")%string)
         (passing_prefix (resolves w timeout) urls)
       ++ [match find (fun u => negb (resolves w timeout u)) urls with
           | Some u => ("DNS check for url " ++ u ++ " ... failed")%string
           | None => dns_all_passed
           end])%list
  /\ printed_lines (trace (web_check w urls timeout syslog)) =
    (map (fun u => ("Web check for url " ++ u ++ " ... passed!")%string)
         (passing_prefix (responds w timeout) urls)
       ++ match find (fun u => negb (responds w timeout u)) urls with
          | None => [web_all_passed]
          | Some u =>
              match web_error w timeout u with
              | Some e =>
                  if isinstance e RequestException
                  then [("Web check for url " ++ u ++ " ... failed: "
                           ++ exn_name e ++ ": " ++ exn_str e)%string]
                  else []
              | None => []
              end
          end)%list.
Proof.
  split.
  - induction urls as [|u urls IH].
    + rewrite dns_check_nil. destruct syslog; reflexivity.
    + cbn [passing_prefix find].
      destruct (resolves w timeout u) eqn:Hu; cbn [negb map app].
      * rewrite (dns_check_cons_ok _ _ _ _ _ Hu). cbn [trace].
        rewrite printed_lines_app, dns_try_printed, Hu, IH. reflexivity.
      * rewrite (dns_check_cons_fail _ _ _ _ _ Hu). cbn [trace].
        rewrite printed_lines_app, dns_try_printed, Hu, dns_except_run.
        destruct syslog; reflexivity.
  - induction urls as [|u urls IH].
    + rewrite web_check_nil. destruct syslog; reflexivity.
    + cbn [passing_prefix find].
      destruct (web_error w timeout u) as [e|] eqn:Hu.
      * assert (Hn : responds w timeout u = false).
        { destruct (responds w timeout u) eqn:Hr; [|reflexivity].
          apply web_error_responds in Hr. congruence. }
        rewrite Hn. cbn [negb map app]. rewrite Hu.
        destruct (isinstance e RequestException) eqn:He.
        -- rewrite (web_check_cons_fail _ _ _ _ _ _ Hu He). cbn [trace].
           rewrite printed_lines_app, web_try_printed, Hn, web_except_run.
           destruct syslog; reflexivity.
        -- rewrite (web_check_cons_crash _ _ _ _ _ _ Hu He). cbn [trace].
           rewrite web_try_printed, Hn. reflexivity.
      * rewrite (web_check_cons_ok _ _ _ _ _ Hu). cbn [trace].
        apply web_error_responds in Hu. rewrite Hu. cbn [negb map app].
        rewrite printed_lines_app, web_try_printed, Hu, IH. reflexivity.
Qed.

(** * When the device refuses a command *)

(** The lemmas of this part hold in every environment. *)

Section Refusals.

Variable env : Env.
Variable timeout : Z.
Variable syslog : bool.

Local Abbreviation w := (world env).

Lemma log_step {A} (message : string) (a : A) :
  (when syslog (send_syslog env message) ;; ret a) =
  mkRun (log_commands syslog message)
        (after_log env syslog message (Return a)).
Proof.
  unfold when, send_syslog, cli, call_value, log_commands, after_log, bind, ret.
  destruct syslog; [|reflexivity]. cbn [result trace].
  destruct (cli_refusal env (syslog_prefix ++ message)); reflexivity.
Qed.

Lemma dns_except_env (u : string) :
  dns_except env u syslog =
  mkRun (Print ("DNS check for url " ++ u ++ " ... failed")
           :: log_commands syslog ("DNS check for url " ++ u ++ " ... failed"))
        (after_log env syslog ("DNS check for url " ++ u ++ " ... failed")
                   (Return (Some false))).
Proof.
  unfold dns_except. cbn zeta. rewrite log_step. reflexivity.
Qed.

Lemma dns_check_env_nil :
  dns_check env [] timeout syslog =
  mkRun (Print dns_all_passed :: log_commands syslog dns_all_passed)
        (after_log env syslog dns_all_passed (Return true)).
Proof. cbn [dns_check]. cbn zeta. rewrite log_step. reflexivity. Qed.

Lemma dns_check_env_cons_ok (u : string) (urls : list string) :
  resolves w timeout u = true ->
  dns_check env (u :: urls) timeout syslog =
  mkRun (trace (dns_try env u timeout) ++ trace (dns_check env urls timeout syslog))
        (result (dns_check env urls timeout syslog)).
Proof.
  intros H. apply (dns_try_ok w) in H.
  change (dns_try w u timeout) with (dns_try env u timeout) in H.
  cbn [dns_check].
  rewrite (bind_return (dns_try env u timeout) tt _ H).
  rewrite try_except_return with (a := None) by reflexivity.
  rewrite bind_return with (a := None) by reflexivity.
  cbn [trace result ret]. rewrite app_nil_r. reflexivity.
Qed.

Lemma dns_check_env_cons_raise (u : string) (urls : list string) (e : exn) :
  result (dns_try env u timeout) = Raise e ->
  dns_check env (u :: urls) timeout syslog =
  mkRun (trace (dns_try env u timeout)
           ++ Print ("DNS check for url " ++ u ++ " ... failed")
           :: log_commands syslog ("DNS check for url " ++ u ++ " ... failed"))
        (after_log env syslog ("DNS check for url " ++ u ++ " ... failed")
                   (Return false)).
Proof.
  intros H. cbn [dns_check].
  rewrite (bind_raise (dns_try env u timeout) e _ H).
  rewrite try_except_caught with (e := e) by reflexivity.
  rewrite dns_except_env. cbn [trace result].
  unfold after_log, bind. cbn [result trace].
  destruct syslog; [|cbn [trace ret]; rewrite app_nil_r; reflexivity].
  destruct (cli_refusal env _); [reflexivity|].
  cbn [trace ret]. rewrite app_nil_r. reflexivity.
Qed.


End Refusals.

Section RefusalsWeb.

Variable env : Env.
Variable timeout : Z.
Variable syslog : bool.

Local Abbreviation w := (world env).

Lemma after_log_raise {A} (message : string) (r : outcome A) (e : exn) :
  after_log env syslog message r = Raise e ->
  r = Raise e
  \/ (syslog = true /\ cli_refusal env (syslog_prefix ++ message) = Some e).
Proof.
  unfold after_log. destruct syslog; [|auto].
  destruct (cli_refusal env (syslog_prefix ++ message)) as [e'|]; [|auto].
  intros [= ->]. auto.
Qed.

Lemma after_log_accepted {A} (message : string) (r : outcome A) :
  log_accepted env -> after_log env syslog message r = r.
Proof. intros H. unfold after_log. rewrite H. destruct syslog; reflexivity. Qed.

Lemma dns_check_env_result (urls : list string) :
  result (dns_check env urls timeout syslog) =
  after_log env syslog
    match find (fun u => negb (resolves w timeout u)) urls with
    | Some u => "DNS check for url " ++ u ++ " ... failed"
    | None => dns_all_passed
    end
    (Return (forallb (resolves w timeout) urls)).
Proof.
  induction urls as [|u urls IH].
  - rewrite dns_check_env_nil. reflexivity.
  - cbn [find forallb]. destruct (resolves w timeout u) eqn:Hu; cbn [negb andb].
    + rewrite (dns_check_env_cons_ok _ _ _ _ _ Hu). exact IH.
    + destruct (dns_try_fail w timeout u Hu) as [e He].
      change (dns_try w u timeout) with (dns_try env u timeout) in He.
      rewrite (dns_check_env_cons_raise _ _ _ _ _ _ He). reflexivity.
Qed.

Lemma web_except_env (u : string) (e : exn) :
  web_except env u syslog e =
  mkRun (Print ("Web check for url " ++ u ++ " ... failed: "
                  ++ exn_name e ++ ": " ++ exn_str e)
           :: log_commands syslog
                ("Web check for url " ++ u ++ " ... failed due to " ++ exn_name e))
        (after_log env syslog
           ("Web check for url " ++ u ++ " ... failed due to " ++ exn_name e)
           (Return (Some false))).
Proof.
  unfold web_except. cbn zeta. rewrite log_step. reflexivity.
Qed.

Lemma web_check_env_nil :
  web_check env [] timeout syslog =
  mkRun (Print web_all_passed :: log_commands syslog web_all_passed)
        (after_log env syslog web_all_passed (Return true)).
Proof. cbn [web_check]. cbn zeta. rewrite log_step. reflexivity. Qed.

Lemma web_try_env_result (u : string) :
  result (web_try env u timeout) =
  match web_error w timeout u with
  | Some e => Raise e
  | None => Return tt
  end.
Proof.
  unfold web_error. change (web_try w u timeout) with (web_try env u timeout).
  destruct (result (web_try env u timeout)) as [[]|]; reflexivity.
Qed.

Lemma web_check_env_cons_ok (u : string) (urls : list string) :
  web_error w timeout u = None ->
  web_check env (u :: urls) timeout syslog =
  mkRun (trace (web_try env u timeout) ++ trace (web_check env urls timeout syslog))
        (result (web_check env urls timeout syslog)).
Proof.
  intros H. pose proof (web_try_env_result u) as Hr. rewrite H in Hr.
  cbn [web_check].
  rewrite (bind_return (web_try env u timeout) tt _ Hr).
  rewrite try_except_return with (a := None) by reflexivity.
  rewrite bind_return with (a := None) by reflexivity.
  cbn [trace result ret]. rewrite app_nil_r. reflexivity.
Qed.

Lemma web_check_env_cons_fail (u : string) (urls : list string) (e : exn) :
  web_error w timeout u = Some e ->
  isinstance e RequestException = true ->
  web_check env (u :: urls) timeout syslog =
  mkRun (trace (web_try env u timeout)
           ++ Print ("Web check for url " ++ u ++ " ... failed: "
                       ++ exn_name e ++ ": " ++ exn_str e)
           :: log_commands syslog
                ("Web check for url " ++ u ++ " ... failed due to " ++ exn_name e))
        (after_log env syslog
           ("Web check for url " ++ u ++ " ... failed due to " ++ exn_name e)
           (Return false)).
Proof.
  intros H He. pose proof (web_try_env_result u) as Hr. rewrite H in Hr.
  cbn [web_check].
  rewrite (bind_raise (web_try env u timeout) e _ Hr).
  rewrite try_except_caught with (e := e) by (reflexivity || exact He).
  rewrite web_except_env. cbn [trace result].
  unfold after_log, bind. cbn [result trace].
  destruct syslog; [|cbn [trace ret]; rewrite app_nil_r; reflexivity].
  destruct (cli_refusal env _); [reflexivity|].
  cbn [trace ret]. rewrite app_nil_r. reflexivity.
Qed.

Lemma web_check_env_cons_crash (u : string) (urls : list string) (e : exn) :
  web_error w timeout u = Some e ->
  isinstance e RequestException = false ->
  web_check env (u :: urls) timeout syslog =
  mkRun (trace (web_try env u timeout)) (Raise e).
Proof.
  intros H He. pose proof (web_try_env_result u) as Hr. rewrite H in Hr.
  cbn [web_check].
  rewrite (bind_raise (web_try env u timeout) e _ Hr).
  rewrite try_except_uncaught with (e := e) by (reflexivity || exact He).
  rewrite bind_raise with (e := e) by reflexivity. reflexivity.
Qed.


(** Where an exception that leaves [web_check] comes from. *)
Lemma web_check_env_raise (urls : list string) (e : exn) :
  result (web_check env urls timeout syslog) = Raise e ->
  (isinstance e RequestException = false
   /\ exists u, In u urls /\ requests_get w u timeout = Raise e)
  \/ (syslog = true
      /\ exists message, cli_refusal env (syslog_prefix ++ message) = Some e).
Proof.
  induction urls as [|u urls IH].
  - rewrite web_check_env_nil. cbn [result]. intros H.
    apply after_log_raise in H. destruct H as [H|[Hs H]]; [discriminate|].
    right. eauto.
  - destruct (web_error w timeout u) as [e'|] eqn:Hu.
    + destruct (isinstance e' RequestException) eqn:He.
      * rewrite (web_check_env_cons_fail _ _ _ Hu He). cbn [result]. intros H.
        apply after_log_raise in H. destruct H as [H|[Hs H]]; [discriminate|].
        right. eauto.
      * rewrite (web_check_env_cons_crash _ _ _ Hu He). cbn [result].
        intros [= <-]. left. split; [exact He|]. exists u.
        split; [left; reflexivity|exact (web_error_crash w _ _ _ Hu He)].
    + rewrite (web_check_env_cons_ok _ _ Hu). cbn [result]. intros H.
      destruct (IH H) as [[He [u' [Hin Hget]]]|Hlog]; [left|right; exact Hlog].
      split; [exact He|]. exists u'. split; [right; exact Hin|exact Hget].
Qed.

End RefusalsWeb.




(** ** [checks] and [main] in every environment *)

Section RefusalsMain.

Variable env : Env.
Variable g : Globals.

Lemma checks_env_run (syslog : bool) :
  let d := dns_check env (WEB_HOSTS g) 1 syslog in
  let h := web_check env (WEB_HOSTS g) 1 syslog in
  checks env g syslog =
  mkRun (trace d ++ match result d with Return true => trace h | _ => [] end)
        match result d with
        | Return true =>
            match result h with
            | Return true => Return tt
            | Return false => Raise AssertionError
            | Raise e => Raise e
            end
        | Return false => Raise AssertionError
        | Raise e => Raise e
        end.
Proof.
  intros d h. unfold checks. fold d h.
  destruct (result d) as [[|]|e] eqn:Hd.
  - rewrite (bind_return d true _ Hd). cbn [assert ret trace result].
    rewrite bind_return with (a := tt) by reflexivity.
    cbn [trace]. rewrite app_nil_r.
    destruct (result h) as [[|]|e] eqn:Hh.
    + rewrite (bind_return h true _ Hh). cbn. rewrite app_nil_r. reflexivity.
    + rewrite (bind_return h false _ Hh). cbn. rewrite app_nil_r. reflexivity.
    + rewrite (bind_raise h e _ Hh). reflexivity.
  - rewrite (bind_return d false _ Hd). cbn [assert raise trace result].
    rewrite bind_raise with (e := AssertionError) by reflexivity.
    reflexivity.
  - rewrite (bind_raise d e _ Hd).
    rewrite bind_raise with (e := e) by reflexivity.
    cbn [trace]. rewrite app_nil_r. reflexivity.
Qed.

(** The handler of [main]: the report, and the alert if the report went
    through. *)
Lemma main_env_run (args : Args) :
  let c := checks env g (arg_syslog args) in
  let logged := after_log env (arg_syslog args) "Network Error!" (Return tt) in
  main env g args =
  mkRun (trace c
           ++ if batch_failed c
              then Print "Network Error!"
                     :: log_commands (arg_syslog args) "Network Error!"
                     ++ match logged with
                        | Return _ =>
                            if arg_chromecast args then trace (alert env g) else []
                        | Raise _ => []
                        end
              else [])
        (if batch_failed c
         then match logged with
              | Return _ =>
                  if arg_chromecast args then result (alert env g) else Return tt
              | Raise e => Raise e
              end
         else result c).
Proof.
  intros c logged. unfold main, batch_failed. fold c.
  destruct (result c) as [[]|e] eqn:Hc.
  - rewrite (try_except_return _ _ _ tt Hc). rewrite app_nil_r.
    rewrite <- Hc. symmetry. apply run_eta.
  - destruct (isinstance e AssertionError_cls) eqn:He.
    + rewrite try_except_caught with (e := e) by assumption.
      cbn zeta. unfold print.
      rewrite bind_return with (a := tt) by reflexivity.
      cbn [emit trace result].
      assert (Hlog : when (arg_syslog args) (send_syslog env "Network Error!")
                     = mkRun (log_commands (arg_syslog args) "Network Error!") logged).
      { pose proof (log_step env (arg_syslog args) "Network Error!" tt) as H.
        unfold logged. rewrite <- H. unfold bind.
        destruct (result (when (arg_syslog args) (send_syslog env "Network Error!")))
          as [[]|e'] eqn:Hw; cbn [ret trace result]; rewrite ?app_nil_r;
          rewrite <- Hw; symmetry; apply run_eta. }
      rewrite Hlog. destruct logged as [[]|e'].
      * rewrite bind_return with (a := tt) by reflexivity.
        cbn [trace result]. unfold when.
        destruct (arg_chromecast args); reflexivity.
      * rewrite bind_raise with (e := e') by reflexivity.
        cbn [trace result app]. rewrite app_nil_r. reflexivity.
    + rewrite try_except_uncaught with (e := e) by assumption.
      rewrite app_nil_r. rewrite <- Hc. symmetry. apply run_eta.
Qed.

Lemma alert_env_result : result (alert env g) = result (audio_play env g).
Proof.
  unfold alert. rewrite server_up_run, server_down_run.
  rewrite bind_return with (a := tt) by reflexivity. cbn [result].
  rewrite result_bind. destruct (result (audio_play env g)) as [[]|]; reflexivity.
Qed.

End RefusalsMain.

(** X3. A failed check never leaves [main] as an exception: the
    [AssertionError] of [checks] is caught.  When [main] ends with an
    exception, then either [--syslog] is set and the device refused a
    [send log] command with it, or the batch had failed, [--chromecast] is
    set and the alert raised it, or a GET of one of the hosts raised it and
    it is neither a [RequestException] nor an [AssertionError]. *)
Theorem main_exceptions (env : Env) (g : Globals) (args : Args) (e : exn) :
  result (main env g args) = Raise e ->
  (arg_syslog args = true
   /\ exists message, cli_refusal env (syslog_prefix ++ message) = Some e)
  \/ (arg_chromecast args = true
      /\ batch_failed (checks env g (arg_syslog args)) = true
      /\ result (alert env g) = Raise e)
  \/ (isinstance e AssertionError_cls = false
      /\ isinstance e RequestException = false
      /\ exists u, In u (WEB_HOSTS g) /\ requests_get (world env) u 1 = Raise e).
Proof.
  rewrite main_env_run. cbn [result].
  destruct (batch_failed (checks env g (arg_syslog args))) eqn:Hf.
  - destruct (after_log env (arg_syslog args) "Network Error!" (Return tt))
      as [[]|e'] eqn:Hlog.
    + destruct (arg_chromecast args); [|discriminate].
      intros H. right. left. auto.
    + intros [= ->]. apply after_log_raise in Hlog.
      destruct Hlog as [H|[Hs H]]; [discriminate|]. left. eauto.
  - intros H. unfold batch_failed in Hf. rewrite H in Hf.
    rewrite checks_env_run in H. cbn [result] in H.
    destruct (result (dns_check env (WEB_HOSTS g) 1 (arg_syslog args)))
      as [[|]|ed] eqn:Hd.
    + destruct (result (web_check env (WEB_HOSTS g) 1 (arg_syslog args)))
        as [[|]|eh] eqn:Hh; try discriminate.
      * injection H as <-. discriminate.
      * injection H as ->.
        destruct (web_check_env_raise _ _ _ _ _ Hh) as [[He Hget]|[Hs Hm]].
        -- right. right. auto.
        -- left. auto.
    + injection H as <-. discriminate.
    + injection H as ->. rewrite dns_check_env_result in Hd.
      apply after_log_raise in Hd. destruct Hd as [Hd|[Hs Hd]]; [discriminate|].
      left. eauto.
Qed.

Lemma main_exceptions_witness :
  let env := refusing_log (lab ship_gi2 None) in
  let g := mkGlobals "192.168.101.103" "Future_Gladiator.mp3"
             ["https://ok.example"; "https://broken.example"]%list in
  (false = true
   /\ exists message, cli_refusal env (syslog_prefix ++ message) = Some ValueError)
  \/ (false = true
      /\ batch_failed (checks env g false) = true
      /\ result (alert env g) = Raise ValueError)
  \/ (isinstance ValueError AssertionError_cls = false
      /\ isinstance ValueError RequestException = false
      /\ exists u, In u (WEB_HOSTS g) /\ requests_get (world env) u 1 = Raise ValueError).
Proof.
  intros env g.
  exact (main_exceptions env g (mkArgs false false) ValueError eq_refl).
Defined.

(** ** The [--syslog] flag when the log commands go through *)

Lemma without_send_log_app (t1 t2 : list event) :
  without_send_log (t1 ++ t2) = (without_send_log t1 ++ without_send_log t2)%list.
Proof. apply filter_app. Qed.

Lemma is_send_log_command (m : string) :
  is_send_log (Cli (syslog_prefix ++ m)) = true.
Proof. cbn [is_send_log]. rewrite strip_prefix_app. reflexivity. Qed.

Lemma without_send_log_kept (t : list event) :
  Forall (fun ev => is_send_log ev = false) t -> without_send_log t = t.
Proof.
  induction 1 as [|ev t Hev _ IH]; [reflexivity|].
  unfold without_send_log in *. cbn [filter]. rewrite Hev. cbn [negb].
  now rewrite IH.
Qed.

Lemma without_send_log_report (line message : string) :
  without_send_log (Print line :: log_commands true message)
  = (Print line :: log_commands false message)%list.
Proof.
  unfold without_send_log, log_commands. cbn [filter].
  rewrite is_send_log_command. reflexivity.
Qed.

Section SyslogFlag.

Variable env : Env.

Lemma without_send_log_dns_try (timeout : Z) (u : string) :
  without_send_log (trace (dns_try env u timeout)) = trace (dns_try env u timeout).
Proof.
  apply without_send_log_kept.
  change (dns_try env u timeout) with (dns_try (world env) u timeout).
  apply Forall_dns_try; reflexivity.
Qed.

Lemma without_send_log_web_try (timeout : Z) (u : string) :
  without_send_log (trace (web_try env u timeout)) = trace (web_try env u timeout).
Proof.
  apply without_send_log_kept.
  change (web_try env u timeout) with (web_try (world env) u timeout).
  apply Forall_web_try; reflexivity.
Qed.

Lemma without_send_log_alert (g : Globals) :
  without_send_log (trace (alert env g)) = trace (alert env g).
Proof.
  apply without_send_log_kept.
  unfold alert. rewrite server_up_run, server_down_run.
  rewrite bind_return with (a := tt) by reflexivity. cbn [trace].
  rewrite trace_bind.
  assert (Hp : Forall (fun ev => is_send_log ev = false)
                 (trace (audio_play env g))).
  { unfold audio_play, cli, call_value, call.
    destruct (cli_refusal env "show ip int bri gi2") as [e|].
    - rewrite bind_raise with (e := e) by reflexivity.
      repeat constructor.
    - rewrite bind_return with (a := cli_output (world env) "show ip int bri gi2")
        by reflexivity.
      cbn [trace]. constructor; [reflexivity|].
      destruct (findall_quad (cli_output (world env) "show ip int bri gi2"))
        as [|host others].
      + rewrite bind_raise with (e := IndexError) by reflexivity. constructor.
      + rewrite bind_return with (a := host) by reflexivity.
        cbn [trace ret app]. rewrite trace_bind. cbn [trace result].
        destruct (Chromecast_init (world env) (CASTIPADDR g));
          repeat constructor. }
  constructor; [reflexivity|]. constructor; [reflexivity|].
  destruct (result (audio_play env g)); [|exact Hp].
  apply Forall_app. split; [exact Hp|]. repeat constructor.
Qed.

Lemma without_send_log_dns_check (timeout : Z) (urls : list string) :
  without_send_log (trace (dns_check env urls timeout true))
  = trace (dns_check env urls timeout false).
Proof.
  induction urls as [|u urls IH].
  - rewrite !dns_check_env_nil. cbn [trace]. apply without_send_log_report.
  - destruct (resolves (world env) timeout u) eqn:Hu.
    + rewrite !(dns_check_env_cons_ok _ _ _ _ _ Hu). cbn [trace].
      rewrite without_send_log_app, without_send_log_dns_try, IH. reflexivity.
    + destruct (dns_try_fail (world env) timeout u Hu) as [e He].
      change (dns_try (world env) u timeout) with (dns_try env u timeout) in He.
      rewrite !(dns_check_env_cons_raise _ _ _ _ _ _ He). cbn [trace].
      rewrite without_send_log_app, without_send_log_dns_try,
        without_send_log_report.
      reflexivity.
Qed.

Lemma without_send_log_web_check (timeout : Z) (urls : list string) :
  without_send_log (trace (web_check env urls timeout true))
  = trace (web_check env urls timeout false).
Proof.
  induction urls as [|u urls IH].
  - rewrite !web_check_env_nil. cbn [trace]. apply without_send_log_report.
  - destruct (web_error (world env) timeout u) as [e|] eqn:Hu.
    + destruct (isinstance e RequestException) eqn:He.
      * rewrite !(web_check_env_cons_fail _ _ _ _ _ _ Hu He). cbn [trace].
        rewrite without_send_log_app, without_send_log_web_try,
          without_send_log_report.
        reflexivity.
      * rewrite !(web_check_env_cons_crash _ _ _ _ _ _ Hu He). cbn [trace].
        apply without_send_log_web_try.
    + rewrite !(web_check_env_cons_ok _ _ _ _ _ Hu). cbn [trace].
      rewrite without_send_log_app, without_send_log_web_try, IH. reflexivity.
Qed.

Hypothesis accepted : log_accepted env.

Lemma web_check_flag_result (timeout : Z) (urls : list string) :
  result (web_check env urls timeout true)
  = result (web_check env urls timeout false).
Proof.
  induction urls as [|u urls IH].
  - rewrite !web_check_env_nil. cbn [result].
    rewrite !after_log_accepted by exact accepted. reflexivity.
  - destruct (web_error (world env) timeout u) as [e|] eqn:Hu.
    + destruct (isinstance e RequestException) eqn:He.
      * rewrite !(web_check_env_cons_fail _ _ _ _ _ _ Hu He). cbn [result].
        rewrite !after_log_accepted by exact accepted. reflexivity.
      * rewrite !(web_check_env_cons_crash _ _ _ _ _ _ Hu He). reflexivity.
    + rewrite !(web_check_env_cons_ok _ _ _ _ _ Hu). exact IH.
Qed.

Lemma checks_flag (g : Globals) :
  result (checks env g true) = result (checks env g false)
  /\ without_send_log (trace (checks env g true)) = trace (checks env g false).
Proof.
  rewrite !checks_env_run. cbn [trace result].
  rewrite !dns_check_env_result, !after_log_accepted by exact accepted.
  rewrite web_check_flag_result. split; [reflexivity|].
  rewrite without_send_log_app, without_send_log_dns_check. f_equal.
  destruct (forallb (resolves (world env) 1) (WEB_HOSTS g)); [|reflexivity].
  apply without_send_log_web_check.
Qed.

End SyslogFlag.

(** X7. As long as the device executes the [send log] commands, the
    [--syslog] flag changes nothing but the log: [main] with the flag ends
    as [main] without it does, and its run, the [send log] commands taken
    out, is the run without the flag: the same probes, the same printed
    lines, the same alert, in the same order. *)
Theorem syslog_flag_only_adds_log_commands
    (env : Env) (g : Globals) (chromecast : bool) :
  log_accepted env ->
  result (main env g (mkArgs chromecast true))
  = result (main env g (mkArgs chromecast false))
  /\ without_send_log (trace (main env g (mkArgs chromecast true)))
     = trace (main env g (mkArgs chromecast false)).
Proof.
  intros Hacc. rewrite !main_env_run.
  cbn [trace result arg_syslog arg_chromecast].
  destruct (checks_flag env Hacc g) as [Hr Ht].
  unfold batch_failed. rewrite Hr.
  rewrite !after_log_accepted by exact Hacc.
  split; [reflexivity|].
  rewrite without_send_log_app, Ht. f_equal.
  destruct (match result (checks env g false) with
            | Return _ => false
            | Raise e => isinstance e AssertionError_cls
            end); [|reflexivity].
  change (Print ?l :: ?x ++ ?y)%list with ((Print l :: x) ++ y)%list.
  rewrite without_send_log_app, without_send_log_report.
  destruct chromecast; [rewrite without_send_log_alert|]; reflexivity.
Qed.

Lemma syslog_flag_only_adds_log_commands_witness :
  let env := mkEnv (lab ship_gi2 None)
               (fun command =>
                  if String.eqb command "show ip int bri gi2"
                  then Some CLISyntaxError
                  else None) in
  let g := mkGlobals "192.168.101.103" "Future_Gladiator.mp3"
             ["https://ok.example"; "https://down.example"]%list in
  result (main env g (mkArgs true true)) = result (main env g (mkArgs true false))
  /\ without_send_log (trace (main env g (mkArgs true true)))
     = trace (main env g (mkArgs true false)).
Proof.
  intros env g.
  apply (syslog_flag_only_adds_log_commands env g true).
  intros message. reflexivity.
Defined.
